(** * available-slot-finder: a shallow embedding of [available_slot_finder.py]

    The development follows the Python module function by function:
    - the record parser [validate_date_range_format],
    - the loader [get_calendar_file_names] / [get_calendar_date_ranges],
    - the search [find_available_slot].

    Python values are represented as follows.
    - A [datetime] is a point of the proleptic Gregorian time line, counted in
      microseconds from 0001-01-01 00:00:00; a [timedelta] is a signed number
      of microseconds.  Comparison and subtraction are then the operations
      of [Z].  The one addition of the program, line 145, goes through
      [datetime_add], which raises [OverflowError] when the sum leaves the
      years 1 to 9999 as the [datetime] module does.
    - The two tests of the program that divide [total_seconds()] by 60 are
      float comparisons.  [longer_than] compares the integers; the two agree
      on differences of datetimes that carry whole seconds, and the
      statements that need a test to come out true are made for such
      datetimes (see [longer_than]).
    - The dict [calendar_date_ranges] is an association list in insertion
      order (the order in which [combinations] walks its keys).
    - A raised exception is a value of [exn]; a computation that may raise
      returns a [result].
    - [datetime.now()] reads a clock; the clock is a function from the number
      of reads made so far to the value read, and every function that reads
      it threads that counter.
    - The file system is read through [listdir] and [read]; a directory that
      cannot be listed or a file that cannot be opened ([OSError]) is outside
      the model, and so is a head count outside the range of a C [ssize_t],
      for which [itertools.combinations] raises [OverflowError]. *)

From Stdlib Require Import String Ascii ZArith List Bool Lia Sorted.
Import ListNotations.
Local Open Scope Z_scope.

(** ** Exceptions and results *)

Inductive value_error : Type :=
| StrptimeMismatch
    (* raised inside [datetime.strptime]: the text does not match the format,
       data remains unconverted, or the fields are no calendar date *)
| NegativeR
    (* [itertools.combinations]: "r must be non-negative" *)
| EmptyMax
    (* [max]: "max() arg is an empty sequence" *)
| DoesNotMatchFormat (date_string : list string)
    (* line 82: "time data '{date_string}' does not match format
       'Y-%m-%d %H:%M:%S - Y-%m-%d %H:%M:%S' or format '%Y-%m-%d'";
       the interpolated value is the list of parts of the record *).

Inductive loader_error : Type :=
| NoCalendarFound
    (* "Could not find any calendar (.txt file) in the path specified: ..." *)
| NotEnoughCalendars (found : nat) (required : Z)
    (* "Not enough calendars (.txt files) for desired minimum amount of
       people. Found {found} people's calendars - {required} was required." *).

Inductive exn : Type :=
| ValueError (why : value_error)
| IndexError
| KeyError (key : string)
| UnboundLocalError (name : string)
| OverflowError
    (* [datetime + timedelta]: "date value out of range" *)
| Exception_ (why : loader_error).

Inductive result (A : Type) : Type :=
| Ok (a : A)
| Raise (e : exn).
Arguments Ok {A} a.
Arguments Raise {A} e.

Definition bind {A B} (r : result A) (k : A -> result B) : result B :=
  match r with
  | Ok a => k a
  | Raise e => Raise e
  end.

Notation "x <- c ;; k" := (bind c (fun x => k))
  (at level 61, c at next level, right associativity).

(** [try: body except ValueError: handler] *)
Definition try_except_ValueError {A} (body handler : result A) : result A :=
  match body with
  | Raise (ValueError _) => handler
  | other => other
  end.

(** ** Time *)

Definition datetime := Z.
Definition timedelta := Z.

Definition SECOND : timedelta := 1000000.
Definition MINUTE : timedelta := 60 * SECOND.
Definition HOUR : timedelta := 60 * MINUTE.
Definition DAY : timedelta := 24 * HOUR.

(** [delta.total_seconds() / 60 > minutes], lines 115-116 and 139-140.  The
    code compares a float quotient with the int [minutes]; the definition
    compares the integers.  For a difference of two datetimes that carry
    whole seconds the two agree: the seconds are an integer below 2^53, and
    their quotient by 60 is an integer or further from every integer than
    the rounding of the division can move it.  For a difference that carries
    microseconds the float quotient can be rounded onto [minutes] where the
    exact quotient is larger, so that the code's test is false where this
    one is true; the converse does not happen for differences of datetimes.
    The statements that need the test to be true are therefore made for
    datetimes with whole seconds, which is what the parser produces. *)
Definition longer_than (delta : timedelta) (minutes : Z) : bool :=
  minutes * MINUTE <? delta.

(** [datetime.now().strftime('%Y-%m-%d %H:%M:%S')] read back by [strptime]:
    the microseconds are dropped. *)
Definition whole_seconds (t : datetime) : datetime := t - t mod SECOND.

Definition clock := nat -> datetime.

(** [datetime.now()]: the value of the [n]-th read, and the counter after it. *)
Definition datetime_now (clk : clock) (n : nat) : datetime * nat := (clk n, S n).

(** Calendar arithmetic of the [datetime] module. *)
Definition is_leap (y : Z) : bool :=
  (y mod 4 =? 0) && (negb (y mod 100 =? 0) || (y mod 400 =? 0)).

Definition days_before_year (y : Z) : Z :=
  let y := y - 1 in y * 365 + y / 4 - y / 100 + y / 400.

Definition days_in_month (y m : Z) : Z :=
  if m =? 2 then (if is_leap y then 29 else 28)
  else if (m =? 4) || (m =? 6) || (m =? 9) || (m =? 11) then 30
  else 31.

Fixpoint days_before_month_aux (y : Z) (months : nat) : Z :=
  match months with
  | O => 0
  | S k => days_before_month_aux y k + days_in_month y (Z.of_nat (S k))
  end.

Definition days_before_month (y m : Z) : Z :=
  days_before_month_aux y (Z.to_nat (m - 1)).

Definition ymd2ord (y m d : Z) : Z :=
  days_before_year y + days_before_month y m + d.

Definition in_range (lo x hi : Z) : bool := (lo <=? x) && (x <=? hi).

(** [datetime(year, month, day, hour, minute, second)]. *)
Definition datetime_new (y m d hh mm ss : Z) : result datetime :=
  if in_range 1 y 9999 && in_range 1 m 12 && in_range 1 d (days_in_month y m)
     && in_range 0 hh 23 && in_range 0 mm 59 && in_range 0 ss 59
  then Ok ((ymd2ord y m d - 1) * DAY + hh * HOUR + mm * MINUTE + ss * SECOND)
  else Raise (ValueError StrptimeMismatch).

(** [date.max.toordinal()], the day number of 9999-12-31. *)
Definition MAXORDINAL : Z := 3652059.

(** [t + delta] of a datetime and a timedelta: the sum, unless its day number
    leaves [1 .. MAXORDINAL] ("date value out of range"). *)
Definition datetime_add (t : datetime) (delta : timedelta) : result datetime :=
  let sum := t + delta in
  let days := sum / DAY + 1 in
  if (0 <? days) && (days <=? MAXORDINAL) then Ok sum else Raise OverflowError.

(** [t.replace(hour=hh, minute=mm, second=ss)]: date and microsecond kept. *)
Definition replace_hms (t : datetime) (hh mm ss : Z) : datetime :=
  (t / DAY) * DAY + hh * HOUR + mm * MINUTE + ss * SECOND + t mod SECOND.

(** ** Python sequences *)

(** [l[j]], negative [j] counting from the end. *)
Definition getitem {A} (l : list A) (j : Z) : result A :=
  let n := Z.of_nat (List.length l) in
  let j' := if j <? 0 then j + n else j in
  if (0 <=? j') && (j' <? n)
  then match nth_error l (Z.to_nat j') with
       | Some x => Ok x
       | None => Raise IndexError
       end
  else Raise IndexError.

(** [itertools.combinations(pool, r)], in the order it yields them. *)
Fixpoint combinations {A} (pool : list A) (r : nat) : list (list A) :=
  match r, pool with
  | O, _ => [[]]
  | S _, [] => []
  | S r', x :: rest => map (cons x) (combinations rest r') ++ combinations rest r
  end.

Definition date_range := (datetime * datetime)%type.

(** [sorted(date_ranges, key=lambda tup: tup[0])]: a stable sort on the
    start; an element is put in front of the first later element whose start
    is not smaller. *)
Fixpoint insert_by_start (x : date_range) (l : list date_range) : list date_range :=
  match l with
  | [] => [x]
  | y :: l' => if fst y <? fst x then y :: insert_by_start x l' else x :: l
  end.

Definition sorted_by_start (l : list date_range) : list date_range :=
  fold_right insert_by_start [] l.

(** [max(date_ranges, key=itemgetter(1))] on [first :: rest]: the first
    element whose end is maximal. *)
Fixpoint max_by_end (best : date_range) (l : list date_range) : date_range :=
  match l with
  | [] => best
  | x :: l' => max_by_end (if snd best <? snd x then x else best) l'
  end.

(** ** The dict of calendars *)

Definition dict := list (string * list date_range).

Definition keys (d : dict) : list string := map fst d.

(** [d[key]] *)
Fixpoint dict_get (d : dict) (key : string) : result (list date_range) :=
  match d with
  | [] => Raise (KeyError key)
  | (k, v) :: d' => if String.eqb k key then Ok v else dict_get d' key
  end.

(** [d[key] = v]: an existing key keeps its place. *)
Fixpoint dict_set (d : dict) (key : string) (v : list date_range) : dict :=
  match d with
  | [] => [(key, v)]
  | (k, w) :: d' =>
      if String.eqb k key then (k, v) :: d' else (k, w) :: dict_set d' key v
  end.

(** ** [find_available_slot] *)

(** Lines 123-143, the [while] loop.  [i] grows by one in every iteration and
    the loop runs while [i < len(date_ranges) - 2]; [todo] is the number of
    iterations still to run, [len(date_ranges) - 2 - i].  The result is the
    value of [available_time_slot] when the loop is left. *)
Fixpoint while_loop (date_ranges : list date_range) (duration_in_minutes : Z)
    (todo : nat) (i shift : Z) (available_time_slot : datetime) : result datetime :=
  match todo with
  | O => Ok available_time_slot
  | S todo' =>
      let i := i + 1 in
      prev <- getitem date_ranges (i + shift) ;;
      next <- getitem date_ranges (i + 1) ;;
      let check_slot (shift : Z) :=
        prev <- getitem date_ranges (i + shift) ;;
        let time_slot_value := fst next - snd prev in
        if longer_than time_slot_value duration_in_minutes
           && (snd prev <? available_time_slot)
        then Ok (snd prev)                                        (* break *)
        else while_loop date_ranges duration_in_minutes todo' i shift
               available_time_slot in
      if (fst prev <? fst next) && (snd next <? snd prev) then
        check_slot (shift - 1)
      else if (fst next <? snd prev) && (snd prev <? snd next) then
        while_loop date_ranges duration_in_minutes todo' i 0
          available_time_slot                                     (* continue *)
      else
        check_slot 0
  end.

(** Lines 120-143. *)
Definition scan (date_ranges : list date_range) (duration_in_minutes : Z)
  : result datetime :=
  match date_ranges with
  | [] => Raise (ValueError EmptyMax)
  | first :: rest =>
      let available_time_slot := snd (max_by_end first rest) in
      while_loop date_ranges duration_in_minutes
        (List.length date_ranges - 1) (-1) 0 available_time_slot
  end.

(** Lines 97-103: the lists of the calendars of one combination, flattened. *)
Fixpoint lookup_all (calendar_date_ranges : dict) (calendar_combination : list string)
  : result (list (list date_range)) :=
  match calendar_combination with
  | [] => Ok []
  | calendar :: rest =>
      v <- dict_get calendar_date_ranges calendar ;;
      vs <- lookup_all calendar_date_ranges rest ;;
      Ok (v :: vs)
  end.

(** Line 112-116: the test that lets the function answer "now". *)
Definition now_is_suitable (first : date_range) (current_date : datetime)
    (duration_in_minutes : Z) : bool :=
  (current_date <? fst first)
  && longer_than (fst first - current_date) duration_in_minutes.

(** What one pass of the [for] loop does: it either returns from the function
    with a fresh [datetime.now()], or leaves a value in [available_time_slot]. *)
Inductive outcome : Type :=
| ReturnNow
| Slot (available_time_slot : datetime).

(** Lines 97-143, the body of the [for] loop. *)
Definition combination_body (calendar_date_ranges : dict)
    (duration_in_minutes : Z) (current_date : datetime)
    (calendar_combination : list string) : result outcome :=
  lists <- lookup_all calendar_date_ranges calendar_combination ;;
  let date_ranges := sorted_by_start (concat lists) in
  match date_ranges with
  | [] => Ok ReturnNow
  | first :: _ =>
      if now_is_suitable first current_date duration_in_minutes
      then Ok ReturnNow
      else a <- scan date_ranges duration_in_minutes ;; Ok (Slot a)
  end.

(** Lines 95-145: the [for] loop and the [return] that follows it.
    [available_time_slot] is [None] while the variable is unbound. *)
Fixpoint for_combinations (clk : clock) (calendar_date_ranges : dict)
    (duration_in_minutes : Z) (current_date : datetime)
    (comb : list (list string)) (available_time_slot : option datetime)
    (n : nat) : result datetime * nat :=
  match comb with
  | [] =>
      match available_time_slot with
      | Some a => (datetime_add a SECOND, n)
      | None => (Raise (UnboundLocalError "available_time_slot"), n)
      end
  | calendar_combination :: comb' =>
      match combination_body calendar_date_ranges duration_in_minutes
              current_date calendar_combination with
      | Raise e => (Raise e, n)
      | Ok ReturnNow => let (t, n) := datetime_now clk n in (Ok t, n)
      | Ok (Slot a) =>
          for_combinations clk calendar_date_ranges duration_in_minutes
            current_date comb' (Some a) n
      end
  end.

Definition find_available_slot (clk : clock) (calendar_date_ranges : dict)
    (duration_in_minutes minimum_people : Z) (n : nat) : result datetime * nat :=
  let (t, n) := datetime_now clk n in
  let current_date := whole_seconds t in
  if minimum_people <? 0 then (Raise (ValueError NegativeR), n)
  else
    for_combinations clk calendar_date_ranges duration_in_minutes current_date
      (combinations (keys calendar_date_ranges) (Z.to_nat minimum_people))
      None n.

(** ** Strings *)

(** [s.startswith(p)] *)
Fixpoint startswith (s p : string) {struct p} : bool :=
  match p with
  | EmptyString => true
  | String a p' =>
      match s with
      | String b s' => Ascii.eqb a b && startswith s' p'
      | EmptyString => false
      end
  end.

(** [s.split(sep)] for a non-empty [sep]: the pieces between the occurrences
    of [sep], found from left to right without overlap.  [skip] counts the
    characters of a separator that still have to be passed over. *)
Fixpoint split_go (sep s : string) (skip : nat) : list string :=
  match s with
  | EmptyString => [EmptyString]
  | String c s' =>
      match skip with
      | S k => split_go sep s' k
      | O =>
          if startswith s sep
          then EmptyString :: split_go sep s' (String.length sep - 1)
          else match split_go sep s' 0 with
               | piece :: pieces => String c piece :: pieces
               | [] => [String c EmptyString]
               end
      end
  end.

Definition str_split (s sep : string) : list string := split_go sep s 0.

(** [s.endswith(suffix)] *)
Definition endswith (s suffix : string) : bool :=
  let n := String.length s in
  let k := String.length suffix in
  (k <=? n)%nat && String.eqb (substring (n - k) k s) suffix.

Definition newline : ascii := "010"%char.

(** [line.strip('\n')] *)
Fixpoint lstrip_newlines (s : string) : string :=
  match s with
  | String c s' => if Ascii.eqb c newline then lstrip_newlines s' else s
  | EmptyString => EmptyString
  end.

Fixpoint rstrip_newlines (s : string) : string :=
  match s with
  | EmptyString => EmptyString
  | String c s' =>
      match rstrip_newlines s' with
      | EmptyString => if Ascii.eqb c newline then EmptyString else String c EmptyString
      | r => String c r
      end
  end.

Definition strip_newlines (s : string) : string :=
  rstrip_newlines (lstrip_newlines s).

(** ** The two formats handed to [datetime.strptime] *)

Inductive format : Type :=
| DateTimeFormat   (* '%Y-%m-%d %H:%M:%S' *)
| DateFormat       (* '%Y-%m-%d' *).

(** ** [validate_date_range_format], [get_calendar_date_ranges] *)

Section Parser.

(** [datetime.strptime(data_string, format)] of the standard library. *)
Variable strptime : string -> format -> result datetime.

(** Lines 71-85. *)
Definition validate_date_range_format (dates : string)
  : result (datetime * datetime) :=
  let date_string := str_split dates " - " in
  try_except_ValueError
    (part0 <- getitem date_string 0 ;;
     start_date_time_obj <- strptime part0 DateTimeFormat ;;
     part1 <- getitem date_string 1 ;;
     end_date_time_obj <- strptime part1 DateTimeFormat ;;
     Ok (start_date_time_obj, end_date_time_obj))
    (try_except_ValueError
       (part0 <- getitem date_string 0 ;;
        entire_day_date_time_obj <- strptime part0 DateFormat ;;
        Ok (replace_hms entire_day_date_time_obj 0 0 0,
            replace_hms entire_day_date_time_obj 23 59 59))
       (Raise (ValueError (DoesNotMatchFormat date_string)))).

(** The records of a file, each parsed on its own. *)
Fixpoint parse_all (lines : list string) : result (list date_range) :=
  match lines with
  | [] => Ok []
  | line :: lines' =>
      r <- validate_date_range_format (strip_newlines line) ;;
      rs <- parse_all lines' ;;
      Ok (r :: rs)
  end.

(** Lines 60-64: the lines of one file, [date_ranges] being the list built
    so far. *)
Fixpoint for_lines (current_date : datetime) (lines : list string)
    (date_ranges : list date_range) : result (list date_range) :=
  match lines with
  | [] => Ok date_ranges
  | line :: lines' =>
      let dates := strip_newlines line in
      r <- validate_date_range_format dates ;;
      let (start_date_time_obj, end_date_time_obj) := r in
      if current_date <? end_date_time_obj
      then for_lines current_date lines'
             (date_ranges ++ [(start_date_time_obj, end_date_time_obj)])
      else for_lines current_date lines' date_ranges
  end.

(** The files are read through [read calendars file], the lines of the file
    [os.path.join(calendars, file)] as iterating over it yields them. *)
Variable read : string -> string -> list string.

(** Lines 57-66. *)
Fixpoint for_files (current_date : datetime) (calendars : string)
    (calendar_files : list string) (calendar_date_ranges : dict) : result dict :=
  match calendar_files with
  | [] => Ok calendar_date_ranges
  | file :: files' =>
      date_ranges <- for_lines current_date (read calendars file) [] ;;
      for_files current_date calendars files'
        (dict_set calendar_date_ranges file date_ranges)
  end.

(** Lines 52-68. *)
Definition get_calendar_date_ranges (clk : clock)
    (calendar_files : list string) (calendars : string) (n : nat)
  : result dict * nat :=
  let (current_date, n) := datetime_now clk n in
  (for_files current_date calendars calendar_files [], n).

End Parser.

(** Lines 35-49; [listdir] is what [os.listdir(calendars_path)] returns. *)
Definition get_calendar_file_names (listdir : list string) (minimum_people : Z)
  : result (list string) :=
  let files := filter (fun file => endswith file ".txt") listdir in
  if (length files =? 0)%nat then Raise (Exception_ NoCalendarFound)
  else if Z.of_nat (length files) <? minimum_people
  then Raise (Exception_ (NotEnoughCalendars (length files) minimum_people))
  else Ok files.

(** ** [validate_calendars_path], [main] *)


Section Main.

Variable strptime : string -> format -> result datetime.

(** The file system: [Path(p).is_dir()], [os.listdir(p)] and the lines of
    the file [os.path.join(p, file)]. *)
Variable is_dir : string -> bool.
Variable listdir : string -> list string.
Variable read : string -> string -> list string.



End Main.

(** ** A model of [datetime.strptime] on ASCII text

    [_strptime] turns the format into a regular expression, matches it at the
    start of the text, rejects text that the match leaves over, and builds
    the datetime from the fields.  A field is a list of alternatives tried in
    order; a [matcher] lists the ways to match in the order in which the
    backtracking matcher would find them. *)

Definition char_class := ascii -> bool.

Definition between (lo hi : ascii) : char_class :=
  fun c => (nat_of_ascii lo <=? nat_of_ascii c)%nat
           && (nat_of_ascii c <=? nat_of_ascii hi)%nat.

Definition is_digit : char_class := between "0" "9".
Definition is_char (a : ascii) : char_class := Ascii.eqb a.

(** [\s] on ASCII: tab, LF, VT, FF, CR, FS, GS, RS, US and the space. *)
Definition is_space : char_class :=
  fun c => between "009" "013" c || between "028" "032" c.

Definition digit_value (c : ascii) : Z :=
  if is_digit c then Z.of_nat (nat_of_ascii c) - 48 else 0.

(** [int(text)] for digits with optional blanks around them. *)
Fixpoint int_of (acc : Z) (s : string) : Z :=
  match s with
  | EmptyString => acc
  | String c s' => int_of (if is_digit c then acc * 10 + digit_value c else acc) s'
  end.

(** One alternative: a sequence of character classes. *)
Fixpoint match_classes (classes : list char_class) (s : string)
  : option (string * string) :=
  match classes with
  | [] => Some (EmptyString, s)
  | cl :: classes' =>
      match s with
      | String c s' =>
          if cl c
          then match match_classes classes' s' with
               | Some (m, r) => Some (String c m, r)
               | None => None
               end
          else None
      | EmptyString => None
      end
  end.

Definition matcher (A : Type) := string -> list (A * string).

Definition field (alternatives : list (list char_class)) : matcher Z :=
  fun s =>
    flat_map (fun alt => match match_classes alt s with
                         | Some (m, r) => [(int_of 0 m, r)]
                         | None => []
                         end) alternatives.

Definition literal (a : ascii) : matcher unit :=
  fun s => match s with
           | String c s' => if Ascii.eqb c a then [(tt, s')] else []
           | EmptyString => []
           end.

(** [\s+], greedy: the longest run first. *)
Fixpoint spaces_star (s : string) : list string :=
  match s with
  | String c s' => if is_space c then spaces_star s' ++ [s] else [s]
  | EmptyString => [s]
  end.

Definition spaces : matcher unit :=
  fun s => match s with
           | String c s' => if is_space c
                            then map (fun r => (tt, r)) (spaces_star s')
                            else []
           | EmptyString => []
           end.

Definition then_ {A B} (p : matcher A) (k : A -> matcher B) : matcher B :=
  fun s => flat_map (fun ar => k (fst ar) (snd ar)) (p s).

Definition done {A} (a : A) : matcher A := fun s => [(a, s)].

Definition d09 := is_digit.
Definition year_field := field [[d09; d09; d09; d09]].
Definition month_field :=
  field [[is_char "1"; between "0" "2"]; [is_char "0"; between "1" "9"];
         [between "1" "9"]].
Definition day_field :=
  field [[is_char "3"; between "0" "1"]; [between "1" "2"; d09];
         [is_char "0"; between "1" "9"]; [between "1" "9"];
         [is_char " "; between "1" "9"]].
Definition hour_field :=
  field [[is_char "2"; between "0" "3"]; [between "0" "1"; d09]; [d09]].
Definition minute_field := field [[between "0" "5"; d09]; [d09]].
Definition second_field :=
  field [[is_char "6"; between "0" "1"]; [between "0" "5"; d09]; [d09]].

Definition date_fields {A} (k : Z -> Z -> Z -> matcher A) : matcher A :=
  then_ year_field (fun y => then_ (literal "-") (fun _ =>
  then_ month_field (fun m => then_ (literal "-") (fun _ =>
  then_ day_field (fun d => k y m d))))).

Definition time_fields {A} (k : Z -> Z -> Z -> matcher A) : matcher A :=
  then_ hour_field (fun hh => then_ (literal ":") (fun _ =>
  then_ minute_field (fun mm => then_ (literal ":") (fun _ =>
  then_ second_field (fun ss => k hh mm ss))))).

Definition format_matcher (fmt : format) : matcher (result datetime) :=
  match fmt with
  | DateTimeFormat =>
      date_fields (fun y m d => then_ spaces (fun _ =>
      time_fields (fun hh mm ss => done (datetime_new y m d hh mm ss))))
  | DateFormat =>
      date_fields (fun y m d => done (datetime_new y m d 0 0 0))
  end.

Definition strptime_ascii (data_string : string) (fmt : format) : result datetime :=
  match format_matcher fmt data_string with
  | (built, EmptyString) :: _ => built
  | _ => Raise (ValueError StrptimeMismatch)
  end.

(** * Notions used in the statements *)

(** The test of lines 140-141 on the pair (previous in effect, next). *)
Definition qualifies (duration_in_minutes : Z) (available_time_slot : datetime)
    (pq : date_range * date_range) : bool :=
  longer_than (fst (snd pq) - snd (fst pq)) duration_in_minutes
  && (snd (fst pq) <? available_time_slot).

(** The pairs (previous in effect, next) that reach line 138, in the order of
    the iterations, when no iteration leaves the loop. *)
Fixpoint examined (date_ranges : list date_range) (todo : nat) (i shift : Z)
  : list (date_range * date_range) :=
  match todo with
  | O => []
  | S todo' =>
      let i := i + 1 in
      match getitem date_ranges (i + shift), getitem date_ranges (i + 1) with
      | Ok prev, Ok next =>
          if (fst prev <? fst next) && (snd next <? snd prev) then
            match getitem date_ranges (i + (shift - 1)) with
            | Ok prev' => (prev', next) :: examined date_ranges todo' i (shift - 1)
            | Raise _ => []
            end
          else if (fst next <? snd prev) && (snd prev <? snd next) then
            examined date_ranges todo' i 0
          else
            match getitem date_ranges (i + 0) with
            | Ok prev' => (prev', next) :: examined date_ranges todo' i 0
            | Raise _ => []
            end
      | _, _ => []
      end
  end.

Definition gaps_examined (date_ranges : list date_range)
  : list (date_range * date_range) :=
  examined date_ranges (length date_ranges - 1) (-1) 0.

(** What holds of [i] and [shift] whenever the loop test is evaluated. *)
Definition loop_inv (date_ranges : list date_range) (todo : nat) (i shift : Z) : Prop :=
  Z.of_nat todo + i + 2 = Z.of_nat (length date_ranges)
  /\ shift <= 0 /\ 0 <= i + 1 + shift.

Definition first_qualifying (d : Z) (a : datetime)
    (pairs : list (date_range * date_range)) : datetime :=
  match find (qualifies d a) pairs with
  | Some pq => snd (fst pq)
  | None => a
  end.

(** The latest end of a non-empty list, as line 121 computes it. *)
Definition latest_end (date_ranges : list date_range) : datetime :=
  match date_ranges with
  | [] => 0
  | first :: rest => snd (max_by_end first rest)
  end.

(** The answer of a combination: what the search returns when this
    combination is the only one that the [for] loop walks through. *)
Definition combination_answer (clk : clock) (cal : dict) (d : Z)
    (current : datetime) (c : list string) (n : nat) : result datetime * nat :=
  for_combinations clk cal d current [c] None n.

Definition runs (cal : dict) (d : Z) (current : datetime)
    (comb : list (list string)) : Prop :=
  forall c, In c comb -> exists o, combination_body cal d current c = Ok o.

Definition none_now (cal : dict) (d : Z) (current : datetime)
    (comb : list (list string)) : Prop :=
  forall c, In c comb -> combination_body cal d current c <> Ok ReturnNow.




Fixpoint all_chars (P : char_class) (s : string) : bool :=
  match s with
  | EmptyString => true
  | String c s' => P c && all_chars P s'
  end.

Definition not_dash : char_class := fun c => negb (Ascii.eqb c "-").

(** A text without a blank that is followed by a dash. *)
Fixpoint no_blank_dash (s : string) : bool :=
  match s with
  | String a (String b _ as s') =>
      negb (Ascii.eqb a " " && Ascii.eqb b "-") && no_blank_dash s'
  | _ => true
  end.

(** A datetime without microseconds, as the parser produces them. *)
Definition whole (t : datetime) : Prop := t mod SECOND = 0.

(** [datetime.max], 9999-12-31 23:59:59.999999. *)
Definition datetime_max : datetime := MAXORDINAL * DAY - 1.

(** A point of the time line that a datetime can hold. *)
Definition representable (t : Z) : Prop := 0 <= t <= datetime_max.

(** A [strptime] that raises nothing but [ValueError]. *)
Definition only_value_errors (strptime : string -> format -> result datetime)
  : Prop :=
  forall text fmt e, strptime text fmt = Raise e -> exists why, e = ValueError why.

Definition not_colon : char_class := fun c => negb (Ascii.eqb c ":").

(** Ranges of which each starts before the one in front of it ends and ends
    after it. *)
Fixpoint overlapping (dr : list date_range) : Prop :=
  match dr with
  | p :: (q :: _) as tl => fst q < snd p /\ snd p < snd q /\ overlapping tl
  | _ => True
  end.

(** * Data of the examples *)

(** Times of day on one fixed date, for the examples. *)
Definition at_ (hh mm ss : Z) : datetime :=
  (ymd2ord 2030 1 15 - 1) * DAY + hh * HOUR + mm * MINUTE + ss * SECOND.

Definition busy (h1 m1 h2 m2 : Z) : date_range := (at_ h1 m1 0, at_ h2 m2 0).

Definition fixed_clock (t : datetime) : clock := fun _ => t.

Definition two_calendars : dict :=
  [("a.txt"%string, [busy 10 0 10 30]); ("b.txt"%string, [busy 10 0 11 30])].

Definition one_calendar_free_at_noon : dict :=
  [("a.txt"%string, [busy 12 0 13 0])].

(** A clock whose first read is 09:00:00 and whose later reads are a quarter
    of a second later. *)
Definition drifting_clock : clock :=
  fun n => match n with
           | O => at_ 9 0 0
           | S _ => at_ 9 0 0 + 250000
           end.

Definition one_calendar_busy_at_ten : dict :=
  [("a.txt"%string, [busy 10 0 10 30])].


(** A range that starts with the previous one and ends before it. *)
Definition nested_from_the_start : dict :=
  [("a.txt"%string, [busy 9 0 12 0; busy 9 0 10 0; busy 11 0 11 30])].

(** A range inside another one, and a range after both. *)
Definition nested_then_later : dict :=
  [("a.txt"%string, [busy 9 0 12 0; busy 10 0 10 30; busy 13 0 14 0])].

Definition overlapping_calendars : dict :=
  [("a.txt"%string, [busy 10 0 10 30]); ("b.txt"%string, [busy 10 15 10 45])].

Definition three_lines : list string :=
  ["2030-01-15 08:00:00 - 2030-01-15 09:00:00" ++ String newline EmptyString;
   "2030-01-15 09:30:00 - 2030-01-15 10:30:00" ++ String newline EmptyString;
   "2030-01-16"]%string.

Definition three_ranges : list date_range :=
  [(at_ 8 0 0, at_ 9 0 0); (at_ 9 30 0, at_ 10 30 0);
   (at_ 0 0 0 + DAY, at_ 23 59 59 + DAY)].

Definition busy_and_free : dict :=
  [("a.txt"%string, [busy 9 0 17 0]); ("b.txt"%string, [])].

Definition lines_with_a_bad_record : list string :=
  ["2030-01-15 09:30:00 - 2030-01-15 10:30:00" ++ String newline EmptyString;
   "15/01/2030" ++ String newline EmptyString;
   "2030-01-16"]%string.

(** A directory in which the file [b.txt] holds a record that is refused. *)
Definition read_with_a_bad_file : string -> string -> list string :=
  fun _ file =>
    if String.eqb file "b.txt" then lines_with_a_bad_record else three_lines.

Definition listing : list string := ["a.txt"; "notes.md"; "b.txt"]%string.

(** A calendar file with one record, busy until the last second of the year
    9999. *)
Definition lines_until_the_last_second : list string :=
  ["2030-01-15 09:00:00 - 9999-12-31 23:59:59"%string].

(** * Properties of the search *)

(** ** The addition of line 145 *)

Lemma datetime_add_cases (t : datetime) (delta : timedelta) :
  (representable (t + delta) /\ datetime_add t delta = Ok (t + delta))
  \/ (~ representable (t + delta) /\ datetime_add t delta = Raise OverflowError).
Proof.
  unfold datetime_add, representable, datetime_max, MAXORDINAL.
  unfold datetime, timedelta in *.
  change DAY with 86400000000. cbv zeta.
  pose proof (Z.div_mod (t + delta) 86400000000 ltac:(lia)).
  pose proof (Z.mod_pos_bound (t + delta) 86400000000 ltac:(lia)).
  destruct (Z.ltb_spec 0 ((t + delta) / 86400000000 + 1));
    destruct (Z.leb_spec ((t + delta) / 86400000000 + 1) 3652059);
    cbn [andb]; [left | right | right | right]; split;
    try reflexivity; lia.
Qed.


Lemma datetime_add_ok (t : datetime) (delta : timedelta) (sum : datetime) :
  datetime_add t delta = Ok sum -> sum = t + delta /\ representable sum.
Proof.
  destruct (datetime_add_cases t delta) as [[H ->]|[_ ->]]; [|discriminate].
  intros [= <-]. auto.
Qed.

Lemma datetime_add_raises (t : datetime) (delta : timedelta) (e : exn) :
  datetime_add t delta = Raise e ->
  e = OverflowError /\ ~ representable (t + delta).
Proof.
  destruct (datetime_add_cases t delta) as [[_ ->]|[H ->]]; [discriminate|].
  intros [= <-]. auto.
Qed.

(** ** Sequences *)

Lemma getitem_in_range {A} (l : list A) (j : Z) :
  - Z.of_nat (length l) <= j < Z.of_nat (length l) ->
  exists x, getitem l j = Ok x /\ In x l.
Proof.
  intros Hj. unfold getitem.
  set (n := Z.of_nat (length l)) in *.
  set (j' := if j <? 0 then j + n else j).
  assert (Hj' : 0 <= j' < n).
  { subst j'. destruct (Z.ltb_spec j 0); lia. }
  replace ((0 <=? j') && (j' <? n)) with true
    by (symmetry; apply andb_true_iff; split;
        [apply Z.leb_le | apply Z.ltb_lt]; lia).
  destruct (nth_error l (Z.to_nat j')) as [x|] eqn:E.
  - exists x. split; [reflexivity | eapply nth_error_In; eauto].
  - apply nth_error_None in E. subst n. lia.
Qed.

Lemma getitem_nonneg {A} (l : list A) (j : nat) (x : A) :
  nth_error l j = Some x -> getitem l (Z.of_nat j) = Ok x.
Proof.
  intros E. unfold getitem.
  assert (Hlt : (j < length l)%nat) by (apply nth_error_Some; congruence).
  destruct (Z.ltb_spec (Z.of_nat j) 0); [lia|].
  replace ((0 <=? Z.of_nat j) && (Z.of_nat j <? Z.of_nat (length l))) with true
    by (symmetry; apply andb_true_iff; split;
        [apply Z.leb_le | apply Z.ltb_lt]; lia).
  now rewrite Nat2Z.id, E.
Qed.

Lemma combinations_incl {A} (pool : list A) :
  forall r c, In c (combinations pool r) -> incl c pool.
Proof.
  induction pool as [|x rest IH]; intros [|r] c Hc; simpl in Hc.
  - destruct Hc as [<-|[]]. intros y [].
  - destruct Hc.
  - destruct Hc as [<-|[]]. intros y [].
  - apply in_app_or in Hc. destruct Hc as [Hc|Hc].
    + apply in_map_iff in Hc. destruct Hc as (c' & <- & Hc').
      intros y [<-|Hy]; [now left | right; eapply IH; eauto].
    + intros y Hy. right. eapply IH; eauto.
Qed.

Lemma combinations_too_many {A} (pool : list A) :
  forall r, (length pool < r)%nat -> combinations pool r = [].
Proof.
  induction pool as [|x rest IH]; intros [|r] Hr; simpl in *; try lia; auto.
  rewrite (IH r), (IH (S r)) by lia. reflexivity.
Qed.

Lemma max_by_end_spec (l : list date_range) :
  forall best,
    In (max_by_end best l) (best :: l)
    /\ forall x, In x (best :: l) -> snd x <= snd (max_by_end best l).
Proof.
  induction l as [|y l IH]; intros best; simpl.
  - split; [now left | intros x [<-|[]]; lia].
  - destruct (IH (if snd best <? snd y then y else best)) as [Hin Hmax].
    split.
    + destruct Hin as [Hin|Hin]; [|now right; right].
      rewrite <- Hin. destruct (snd best <? snd y); [right; now left | now left].
    + intros x Hx.
      assert (Hb : snd best <= snd (max_by_end (if snd best <? snd y then y else best) l)
                   /\ snd y <= snd (max_by_end (if snd best <? snd y then y else best) l)).
      { pose proof (Hmax _ (or_introl eq_refl)) as H0.
        destruct (Z.ltb_spec (snd best) (snd y)); lia. }
      destruct Hx as [<-|[<-|Hx]]; try lia.
      apply Hmax. now right.
Qed.

(** [combinations] yields lists of [r] elements of the pool. *)
Lemma combinations_length {A} (pool : list A) :
  forall r c, In c (combinations pool r) -> length c = r.
Proof.
  induction pool as [|x rest IH]; intros [|r] c Hc; simpl in Hc.
  - now destruct Hc as [<-|[]].
  - destruct Hc.
  - now destruct Hc as [<-|[]].
  - apply in_app_or in Hc. destruct Hc as [Hc|Hc]; [|now apply IH].
    apply in_map_iff in Hc. destruct Hc as (c' & <- & Hc').
    simpl. f_equal. now apply IH.
Qed.

(** [sorted_by_start] orders by start and keeps the order of the ranges that
    start together, as the stable sort of Python does. *)
Lemma insert_by_start_sorted (x : date_range) (l : list date_range) :
  Sorted (fun a b => fst a <= fst b) l ->
  Sorted (fun a b => fst a <= fst b) (insert_by_start x l).
Proof.
  induction l as [|y l IH]; intros Hs; simpl.
  - repeat constructor.
  - destruct (Z.ltb_spec (fst y) (fst x)) as [Hlt|Hge].
    + inversion Hs as [|? ? Hs' Hhd]; subst.
      constructor; [now apply IH|].
      destruct l as [|z l]; simpl.
      * constructor. now apply Z.lt_le_incl.
      * destruct (fst z <? fst x); constructor.
        -- inversion Hhd; subst. assumption.
        -- now apply Z.lt_le_incl.
    + constructor; [exact Hs | constructor; exact Hge].
Qed.

Lemma sorted_by_start_sorted (l : list date_range) :
  Sorted (fun a b => fst a <= fst b) (sorted_by_start l).
Proof.
  induction l as [|x l IH]; simpl; [constructor|].
  now apply insert_by_start_sorted.
Qed.

Lemma insert_by_start_stable (k : Z) (x : date_range) (l : list date_range) :
  filter (fun r => fst r =? k) (insert_by_start x l)
  = filter (fun r => fst r =? k) (x :: l).
Proof.
  induction l as [|y l IH]; [reflexivity|].
  cbn [insert_by_start].
  destruct (Z.ltb_spec (fst y) (fst x)) as [Hlt|Hge]; [|reflexivity].
  cbn [filter] in *. rewrite IH.
  unfold date_range, datetime in *.
  destruct (Z.eqb_spec (fst x) k), (Z.eqb_spec (fst y) k); try reflexivity; lia.
Qed.

Lemma sorted_by_start_stable (k : Z) (l : list date_range) :
  filter (fun r => fst r =? k) (sorted_by_start l)
  = filter (fun r => fst r =? k) l.
Proof.
  induction l as [|x l IH]; [reflexivity|].
  cbn [sorted_by_start fold_right].
  change (fold_right insert_by_start [] l) with (sorted_by_start l).
  rewrite insert_by_start_stable. cbn [filter]. now rewrite IH.
Qed.

(** ** The dict *)

Lemma dict_get_key (d : dict) (key : string) :
  In key (keys d) -> exists v, dict_get d key = Ok v.
Proof.
  induction d as [|[k v] d IH]; simpl; [intros []|].
  intros [->|H].
  - rewrite String.eqb_refl. eauto.
  - destruct (String.eqb k key); eauto.
Qed.

Lemma lookup_all_keys (d : dict) (c : list string) :
  incl c (keys d) -> exists lists, lookup_all d c = Ok lists.
Proof.
  induction c as [|k c IH]; intros Hc; simpl; [eauto|].
  destruct (dict_get_key d k) as [v ->]; [apply Hc; now left|].
  destruct IH as [vs ->]; [intros y Hy; apply Hc; now right|].
  simpl. eauto.
Qed.

(** ** The [while] loop *)

Lemma while_loop_examined (dr : list date_range) (d : Z) (a : datetime) :
  forall todo i shift,
    loop_inv dr todo i shift ->
    while_loop dr d todo i shift a
    = Ok (first_qualifying d a (examined dr todo i shift)).
Proof.
  induction todo as [|todo IH]; intros i shift (Hlen & Hsh & Hlo); [reflexivity|].
  cbn [while_loop examined].
  destruct (getitem_in_range dr (i + 1 + shift)) as (prev & -> & _); [lia|].
  destruct (getitem_in_range dr (i + 1 + 1)) as (next & -> & _); [lia|].
  cbn [bind].
  destruct ((fst prev <? fst next) && (snd next <? snd prev)).
  - destruct (getitem_in_range dr (i + 1 + (shift - 1))) as (prev' & -> & _); [lia|].
    cbn [bind]. unfold first_qualifying. cbn [find].
    change (qualifies d a (prev', next))
      with (longer_than (fst next - snd prev') d && (snd prev' <? a)).
    destruct (longer_than (fst next - snd prev') d && (snd prev' <? a));
      [reflexivity|].
    apply IH. unfold loop_inv. lia.
  - destruct ((fst next <? snd prev) && (snd prev <? snd next)).
    + apply IH. unfold loop_inv. lia.
    + destruct (getitem_in_range dr (i + 1 + 0)) as (prev' & -> & _); [lia|].
      cbn [bind]. unfold first_qualifying. cbn [find].
      change (qualifies d a (prev', next))
        with (longer_than (fst next - snd prev') d && (snd prev' <? a)).
      destruct (longer_than (fst next - snd prev') d && (snd prev' <? a));
        [reflexivity|].
      apply IH. unfold loop_inv. lia.
Qed.

Lemma examined_in (dr : list date_range) :
  forall todo i shift pq,
    In pq (examined dr todo i shift) -> In (fst pq) dr /\ In (snd pq) dr.
Proof.
  induction todo as [|todo IH]; intros i shift pq; cbn [examined]; [intros []|].
  destruct (getitem dr (i + 1 + shift)) as [prev|] eqn:E1; [|intros []].
  destruct (getitem dr (i + 1 + 1)) as [next|] eqn:E2; [|intros []].
  assert (Hget : forall j x, getitem dr j = Ok x -> In x dr).
  { intros j x. unfold getitem.
    destruct ((0 <=? _) && _); [|discriminate].
    destruct (nth_error _ _) eqn:E; [|discriminate].
    intros [= <-]. eapply nth_error_In; eauto. }
  destruct ((fst prev <? fst next) && (snd next <? snd prev)).
  - destruct (getitem dr (i + 1 + (shift - 1))) as [prev'|] eqn:E3; [|intros []].
    intros [<-|H]; [split; eauto | eauto].
  - destruct ((fst next <? snd prev) && (snd prev <? snd next)); [eauto|].
    destruct (getitem dr (i + 1 + 0)) as [prev'|] eqn:E3; [|intros []].
    intros [<-|H]; [split; eauto | eauto].
Qed.

Lemma scan_examined (dr : list date_range) (d : Z) :
  dr <> [] ->
  scan dr d = Ok (first_qualifying d (latest_end dr) (gaps_examined dr)).
Proof.
  destruct dr as [|first rest]; [congruence|]. intros _.
  unfold scan, gaps_examined, latest_end.
  apply while_loop_examined. unfold loop_inv. cbn [length]. lia.
Qed.

(** ** One combination *)

Lemma scan_total (dr : list date_range) (d : Z) :
  dr <> [] -> exists a, scan dr d = Ok a.
Proof. intros H. rewrite scan_examined by exact H. eauto. Qed.

Lemma combination_body_total (cal : dict) (d : Z) (current : datetime)
    (c : list string) :
  incl c (keys cal) -> exists o, combination_body cal d current c = Ok o.
Proof.
  intros Hc. unfold combination_body.
  destruct (lookup_all_keys cal c Hc) as [lists ->]. cbn [bind].
  destruct (sorted_by_start (concat lists)) as [|first rest] eqn:E; [eauto|].
  destruct (now_is_suitable first current d); [eauto|].
  destruct (scan_total (first :: rest) d) as [a ->]; [discriminate|].
  cbn [bind]. eauto.
Qed.

(** ** The [for] loop *)

Section ForLoop.

Variable clk : clock.
Variable cal : dict.
Variable d : Z.
Variable current : datetime.

Lemma runs_combinations (r : nat) :
  runs cal d current (combinations (keys cal) r).
Proof.
  intros c Hc. apply combination_body_total.
  eapply combinations_incl; eauto.
Qed.

Lemma runs_app_l (pre post : list (list string)) :
  runs cal d current (pre ++ post) -> runs cal d current pre.
Proof. intros H c Hc. apply H, in_or_app. now left. Qed.

(** Combinations that leave a value in [available_time_slot] are walked
    through, whatever follows them. *)
Lemma loop_skips (pre : list (list string)) :
  runs cal d current pre -> none_now cal d current pre ->
  forall avail, exists avail',
    forall post n,
      for_combinations clk cal d current (pre ++ post) avail n
      = for_combinations clk cal d current post avail' n.
Proof.
  induction pre as [|c pre IH]; intros Hruns Hnone avail.
  - exists avail. reflexivity.
  - destruct (Hruns c (or_introl eq_refl)) as [[|a] Hc].
    + exfalso. apply (Hnone c (or_introl eq_refl)). exact Hc.
    + destruct (IH (fun x Hx => Hruns x (or_intror Hx))
                   (fun x Hx => Hnone x (or_intror Hx)) (Some a))
        as (avail' & Hloop).
      exists avail'. intros post n.
      cbn [app for_combinations]. rewrite Hc. apply Hloop.
Qed.

Lemma loop_returns_now (pre : list (list string)) (c : list string)
    (post : list (list string)) (avail : option datetime) (n : nat) :
  runs cal d current pre -> none_now cal d current pre ->
  combination_body cal d current c = Ok ReturnNow ->
  for_combinations clk cal d current (pre ++ c :: post) avail n
  = (Ok (clk n), S n).
Proof.
  intros Hruns Hnone Hc.
  destruct (loop_skips pre Hruns Hnone avail) as (avail' & Hloop).
  rewrite Hloop. cbn [for_combinations]. now rewrite Hc.
Qed.

Lemma loop_returns_last (pre : list (list string)) (c : list string)
    (a : datetime) (avail : option datetime) (n : nat) :
  runs cal d current pre -> none_now cal d current pre ->
  combination_body cal d current c = Ok (Slot a) ->
  for_combinations clk cal d current (pre ++ [c]) avail n
  = (datetime_add a SECOND, n).
Proof.
  intros Hruns Hnone Hc.
  destruct (loop_skips pre Hruns Hnone avail) as (avail' & Hloop).
  rewrite Hloop. cbn [for_combinations]. now rewrite Hc.
Qed.

Lemma loop_some_now (comb : list (list string)) :
  runs cal d current comb ->
  (exists c, In c comb /\ combination_body cal d current c = Ok ReturnNow) ->
  forall avail n,
    for_combinations clk cal d current comb avail n = (Ok (clk n), S n).
Proof.
  induction comb as [|c comb IH]; intros Hruns (c0 & Hin & Hc0) avail n.
  - destruct Hin.
  - cbn [for_combinations].
    destruct (Hruns c (or_introl eq_refl)) as [[|a] Hc]; rewrite Hc.
    + reflexivity.
    + destruct Hin as [->|Hin]; [congruence|].
      apply IH; [intros x Hx; apply Hruns; now right | eauto].
Qed.

End ForLoop.

(** The loop either never reads the clock, and then its result does not
    depend on it, or it reads it once and returns what it read. *)
Lemma loop_clock (cal : dict) (d : Z) (current : datetime) :
  forall comb avail,
    (exists r, forall clk n, for_combinations clk cal d current comb avail n = (r, n))
    \/ (forall clk n,
           for_combinations clk cal d current comb avail n = (Ok (clk n), S n)).
Proof.
  induction comb as [|c comb IH]; intros avail; cbn [for_combinations].
  - left. destruct avail; eauto.
  - destruct (combination_body cal d current c) as [[|a]|e].
    + right. reflexivity.
    + apply IH.
    + left. eauto.
Qed.

Lemma find_available_slot_unfold (clk : clock) (cal : dict) (d k : Z) (n : nat) :
  0 <= k ->
  find_available_slot clk cal d k n
  = for_combinations clk cal d (whole_seconds (clk n))
      (combinations (keys cal) (Z.to_nat k)) None (S n).
Proof.
  intros Hk. unfold find_available_slot, datetime_now.
  destruct (Z.ltb_spec k 0); [lia | reflexivity].
Qed.

(** * The search as a whole *)

(** C1: an input on which the code departs from the claim.  The calendar
    [a.txt] is busy from 10:00 to 10:30 and the calendar [b.txt] from 10:00
    to 11:30; one person and 30 minutes are asked for, the clock shows
    09:45.  The first combination enumerated is [a.txt] alone, and on its
    own it answers 10:30:01.  The [return] of line 145 stands after the
    [for] loop and not in its body: the search walks on to the second
    combination, whose value replaces the first, and returns 11:30:01,
    though one person is free from 10:30:01.  With the same two calendars
    entered in the other order the search returns 10:30:01. *)
Theorem first_combination_does_not_decide :
  let clk := fixed_clock (at_ 9 45 0) in
  hd_error (combinations (keys two_calendars) 1) = Some ["a.txt"%string]
  /\ combination_answer clk two_calendars 30 (whole_seconds (clk 0%nat))
       ["a.txt"%string] 1
     = (Ok (at_ 10 30 1), 1%nat)
  /\ find_available_slot clk two_calendars 30 1 0 = (Ok (at_ 11 30 1), 1%nat)
  /\ find_available_slot clk two_calendars 30 1 0
     <> combination_answer clk two_calendars 30 (whole_seconds (clk 0%nat))
          ["a.txt"%string] 1
  /\ find_available_slot clk (rev two_calendars) 30 1 0
     = (Ok (at_ 10 30 1), 1%nat).
Proof.
  cbv zeta. repeat split; try (vm_compute; reflexivity).
  vm_compute. discriminate.
Qed.

(** What the loop does in general.  The first combination that allows a
    meeting right away makes the search return the clock value read at that
    moment, whatever combinations follow it.  When no combination does, the
    value that the last combination enumerated left in
    [available_time_slot] is the one that line 145 adds a second to. *)
Lemma first_now_else_last_combination
    (clk : clock) (cal : dict) (d k : Z) (n : nat)
    (pre : list (list string)) (c : list string) (post : list (list string)) :
  0 <= k ->
  combinations (keys cal) (Z.to_nat k) = pre ++ c :: post ->
  none_now cal d (whole_seconds (clk n)) pre ->
  match combination_body cal d (whole_seconds (clk n)) c with
  | Ok ReturnNow =>
      find_available_slot clk cal d k n = (Ok (clk (S n)), S (S n))
  | Ok (Slot a) =>
      post = [] ->
      find_available_slot clk cal d k n = (datetime_add a SECOND, S n)
  | Raise _ => False
  end.
Proof.
  intros Hk Hcomb Hnone.
  rewrite find_available_slot_unfold by exact Hk.
  pose proof (runs_combinations cal d (whole_seconds (clk n)) (Z.to_nat k)) as Hruns.
  rewrite Hcomb in *.
  assert (Hpre : runs cal d (whole_seconds (clk n)) pre)
    by (eapply runs_app_l; eauto).
  destruct (Hruns c) as [o Ho]; [apply in_or_app; right; now left|].
  rewrite Ho. destruct o as [|a].
  - now apply loop_returns_now.
  - intros ->. now apply loop_returns_last.
Qed.

(** ** The clock *)

(** C4, as the specification states it, fails.  Two runs on the same
    calendars, duration and head count, whose clocks agree on the value read
    at entry, return different timestamps: the value returned for "now" is a
    second read of the clock. *)
Lemma now_is_read_again :
  drifting_clock 0%nat = fixed_clock (at_ 9 0 0) 0%nat
  /\ find_available_slot drifting_clock one_calendar_free_at_noon 30 1 0
     = (Ok (at_ 9 0 0 + 250000), 2%nat)
  /\ find_available_slot (fixed_clock (at_ 9 0 0)) one_calendar_free_at_noon 30 1 0
     = (Ok (at_ 9 0 0), 2%nat)
  /\ fst (find_available_slot drifting_clock one_calendar_free_at_noon 30 1 0)
     <> fst (find_available_slot (fixed_clock (at_ 9 0 0))
               one_calendar_free_at_noon 30 1 0).
Proof.
  repeat split; try (vm_compute; reflexivity).
  vm_compute. discriminate.
Qed.

(** C4, amended.  The search is a function of the calendars, the duration,
    the head count and two reads of the clock.  The read at entry counts
    with its microseconds dropped; every comparison uses it.  The clock is
    read a second time only to return "now", and that second read is then
    the result.  Two runs that agree on these two reads agree on the result
    and on the number of reads. *)
Theorem result_depends_on_two_clock_reads
    (clk clk' : clock) (cal : dict) (d k : Z) (n : nat) :
  whole_seconds (clk n) = whole_seconds (clk' n) ->
  clk (S n) = clk' (S n) ->
  find_available_slot clk cal d k n = find_available_slot clk' cal d k n
  /\ (snd (find_available_slot clk cal d k n) = S n
      \/ find_available_slot clk cal d k n = (Ok (clk (S n)), S (S n))).
Proof.
  intros H0 H1. unfold find_available_slot, datetime_now.
  destruct (k <? 0); [split; [reflexivity | now left]|].
  rewrite <- H0.
  destruct (loop_clock cal d (whole_seconds (clk n))
              (combinations (keys cal) (Z.to_nat k)) None) as [[r Hr]|Hnow].
  - rewrite !Hr. split; [reflexivity | now left].
  - rewrite !Hnow, H1. split; [reflexivity | now right].
Qed.

Lemma result_depends_on_two_clock_reads_witness :
  find_available_slot drifting_clock one_calendar_free_at_noon 30 1 0
  = find_available_slot
      (fun n => match n with
                | 0%nat => at_ 9 0 0 + 999
                | 1%nat => at_ 9 0 0 + 250000
                | _ => at_ 17 0 0
                end)
      one_calendar_free_at_noon 30 1 0.
Proof.
  refine (proj1 (result_depends_on_two_clock_reads drifting_clock _
                   one_calendar_free_at_noon 30 1 0 _ _)).
  - vm_compute. reflexivity.
  - reflexivity.
Defined.

(** ** Answering "now" *)

(** C7, as the specification states it, fails.  The earliest busy range
    starts at 10:00, the clock shows 09:30:00 and 30 minutes are asked for:
    the gap is as long as the duration, and the search does not answer the
    clock value but 10:30:01. *)
Lemma gap_equal_to_duration_is_not_now :
  let clk := fixed_clock (at_ 9 30 0) in
  whole_seconds (clk 0%nat) < at_ 10 0 0
  /\ 30 * MINUTE <= at_ 10 0 0 - whole_seconds (clk 0%nat)
  /\ find_available_slot clk one_calendar_busy_at_ten 30 1 0
     = (Ok (at_ 10 30 1), 1%nat)
  /\ fst (find_available_slot clk one_calendar_busy_at_ten 30 1 0)
     <> Ok (clk 1%nat).
Proof.
  cbv zeta. repeat split; try (vm_compute; reflexivity);
    vm_compute; discriminate.
Qed.

(** C7, amended.  Let a combination be enumerated whose sorted ranges start
    with [first], and let the start of [first] carry whole seconds, as the
    starts of parsed records do.  If [first] starts after the clock value
    read at entry (microseconds dropped) and the time between the two is
    strictly longer than the duration asked for, the search returns the
    value of a second read of the clock, and reads the clock no further. *)
Theorem now_if_first_start_strictly_later
    (clk : clock) (cal : dict) (d k : Z) (n : nat)
    (c : list string) (lists : list (list date_range))
    (first : date_range) (rest : list date_range) :
  0 <= k ->
  In c (combinations (keys cal) (Z.to_nat k)) ->
  lookup_all cal c = Ok lists ->
  sorted_by_start (concat lists) = first :: rest ->
  whole (fst first) ->
  whole_seconds (clk n) < fst first ->
  d * MINUTE < fst first - whole_seconds (clk n) ->
  find_available_slot clk cal d k n = (Ok (clk (S n)), S (S n)).
Proof.
  intros Hk Hin Hlists Hsorted _ Hlater Hgap.
  rewrite find_available_slot_unfold by exact Hk.
  apply loop_some_now; [apply runs_combinations|].
  exists c. split; [exact Hin|].
  unfold combination_body. rewrite Hlists. cbn [bind]. rewrite Hsorted.
  unfold now_is_suitable, longer_than.
  destruct (Z.ltb_spec (whole_seconds (clk n)) (fst first)); [|lia].
  destruct (Z.ltb_spec (d * MINUTE) (fst first - whole_seconds (clk n))); [|lia].
  reflexivity.
Qed.

Lemma now_if_first_start_strictly_later_witness :
  find_available_slot drifting_clock one_calendar_busy_at_ten 30 1 0
  = (Ok (at_ 9 0 0 + 250000), 2%nat).
Proof.
  refine (now_if_first_start_strictly_later drifting_clock
            one_calendar_busy_at_ten 30 1 0 ["a.txt"%string]
            [[busy 10 0 10 30]] (busy 10 0 10 30) [] _ _ _ _ _ _ _).
  - lia.
  - now left.
  - reflexivity.
  - reflexivity.
  - vm_compute. reflexivity.
  - vm_compute. reflexivity.
  - vm_compute. reflexivity.
Defined.

(** ** No combination *)

Lemma combinations_none (cal : dict) (k : Z) :
  0 < k -> cal = [] \/ Z.of_nat (length cal) < k ->
  combinations (keys cal) (Z.to_nat k) = [].
Proof.
  intros Hk H. apply combinations_too_many. unfold keys. rewrite length_map.
  destruct H as [->|H]; [simpl|]; lia.
Qed.

(** C8.  Let the head count be positive, and let the dict of calendars be
    empty or hold fewer calendars than the head count.  Then the search
    returns no timestamp: it raises an exception, the [UnboundLocalError] of
    the [return] statement that finds [available_time_slot] unbound.  The
    loader raises its own exception before: [get_calendar_file_names], given
    a directory with as many calendar files as the dict has entries, raises
    an [Exception]. *)
Theorem no_combination_raises
    (clk : clock) (cal : dict) (d k : Z) (n : nat) (listdir : list string) :
  0 < k ->
  cal = [] \/ Z.of_nat (length cal) < k ->
  length (filter (fun file => endswith file ".txt") listdir) = length cal ->
  find_available_slot clk cal d k n
  = (Raise (UnboundLocalError "available_time_slot"), S n)
  /\ exists why, get_calendar_file_names listdir k = Raise (Exception_ why).
Proof.
  intros Hk Hfew Hfiles. split.
  - rewrite find_available_slot_unfold by lia.
    rewrite combinations_none by assumption. reflexivity.
  - unfold get_calendar_file_names. rewrite Hfiles.
    destruct (Nat.eqb_spec (length cal) 0) as [E|E]; [eauto|].
    destruct (Z.ltb_spec (Z.of_nat (length cal)) k); [eauto|].
    destruct Hfew as [->|]; [simpl in E|]; lia.
Qed.

Lemma no_combination_raises_witness :
  find_available_slot (fixed_clock (at_ 9 0 0)) one_calendar_busy_at_ten 30 2 0
  = (Raise (UnboundLocalError "available_time_slot"), 1%nat)
  /\ exists why,
      get_calendar_file_names ["a.txt"%string; "readme.md"%string] 2
      = Raise (Exception_ why).
Proof.
  refine (no_combination_raises (fixed_clock (at_ 9 0 0))
            one_calendar_busy_at_ten 30 2 0
            ["a.txt"%string; "readme.md"%string] _ _ _).
  - lia.
  - right. simpl. lia.
  - reflexivity.
Defined.

(** * The scan of one combination *)

Lemma insert_by_start_in (x y : date_range) (l : list date_range) :
  In x (insert_by_start y l) <-> x = y \/ In x l.
Proof.
  induction l as [|z l IH]; simpl.
  - intuition congruence.
  - destruct (fst z <? fst y); simpl; rewrite ?IH; intuition congruence.
Qed.

Lemma sorted_by_start_in (x : date_range) (l : list date_range) :
  In x (sorted_by_start l) <-> In x l.
Proof.
  induction l as [|y l IH]; simpl; [tauto|].
  rewrite insert_by_start_in, IH. intuition congruence.
Qed.

Lemma latest_end_spec (dr : list date_range) :
  dr <> [] ->
  (exists r, In r dr /\ snd r = latest_end dr)
  /\ forall r, In r dr -> snd r <= latest_end dr.
Proof.
  destruct dr as [|first rest]; [congruence|]. intros _.
  destruct (max_by_end_spec rest first) as [Hin Hmax].
  split; [exists (max_by_end first rest); split; [exact Hin | reflexivity]|].
  exact Hmax.
Qed.

Lemma first_qualifying_none (d : Z) (a : datetime)
    (pairs : list (date_range * date_range)) :
  (forall pq, In pq pairs -> qualifies d a pq = false) ->
  first_qualifying d a pairs = a.
Proof.
  intros H. unfold first_qualifying.
  destruct (find (qualifies d a) pairs) as [pq|] eqn:E; [|reflexivity].
  apply find_some in E. destruct E as [Hin Hq].
  rewrite (H pq Hin) in Hq. discriminate.
Qed.

Lemma combination_body_scan (cal : dict) (d : Z) (current : datetime)
    (c : list string) (lists : list (list date_range))
    (first : date_range) (rest : list date_range) (a : datetime) :
  lookup_all cal c = Ok lists ->
  sorted_by_start (concat lists) = first :: rest ->
  now_is_suitable first current d = false ->
  scan (first :: rest) d = Ok a ->
  combination_body cal d current c = Ok (Slot a).
Proof.
  intros Hl Hs Hn Ha. unfold combination_body.
  rewrite Hl. cbn [bind]. rewrite Hs, Hn, Ha. reflexivity.
Qed.

(** ** Ranges that do not touch *)

Lemma getitem_app_middle {A} (pre : list A) (x : A) (post : list A) (j : Z) :
  j = Z.of_nat (length pre) -> getitem (pre ++ x :: post) j = Ok x.
Proof.
  intros ->. apply getitem_nonneg.
  rewrite nth_error_app2 by lia. now rewrite Nat.sub_diag.
Qed.




Lemma combination_answer_slot (clk : clock) (cal : dict) (d : Z)
    (current : datetime) (c : list string) (n : nat) (a : datetime) :
  combination_body cal d current c = Ok (Slot a) ->
  combination_answer clk cal d current c n = (datetime_add a SECOND, n).
Proof.
  intros H. unfold combination_answer. cbn [for_combinations].
  now rewrite H.
Qed.

(** The search on a dict with one calendar and one person required, when the
    clock does not allow to answer "now". *)
Lemma find_available_slot_single (clk : clock) (key : string)
    (ranges : list date_range) (d : Z) (n : nat)
    (first : date_range) (rest : list date_range) (a : datetime) :
  sorted_by_start (ranges ++ []) = first :: rest ->
  now_is_suitable first (whole_seconds (clk n)) d = false ->
  scan (first :: rest) d = Ok a ->
  find_available_slot clk [(key, ranges)] d 1 n = (datetime_add a SECOND, S n).
Proof.
  intros Hs Hn Ha. rewrite find_available_slot_unfold by lia.
  change (combinations (keys [(key, ranges)]) (Z.to_nat 1)) with [[key]].
  cbn [for_combinations].
  rewrite (combination_body_scan [(key, ranges)] d _ [key] [ranges] first rest a);
    try assumption; [reflexivity|].
  cbn [lookup_all dict_get]. now rewrite String.eqb_refl.
Qed.




(** ** A range inside the previous one *)

(** C5: an input on which the code departs from the claim.  The calendar is
    busy from 09:00 to 12:00; the range 09:00-10:00 lies inside that range
    (same start, earlier end) and follows it in the sorted list.  The test
    of line 127 compares the starts with [<], so the range is not skipped:
    it becomes the previous range of the next pair, and the search returns
    10:00:01, one second past the end of the nested range, in the middle of
    the busy range. *)
Lemma nested_range_with_equal_start_reports_gap :
  sorted_by_start [busy 9 0 12 0; busy 9 0 10 0; busy 11 0 11 30]
  = [busy 9 0 12 0; busy 9 0 10 0; busy 11 0 11 30]
  /\ find_available_slot (fixed_clock (at_ 8 45 0)) nested_from_the_start 30 1 0
     = (Ok (at_ 10 0 1), 1%nat).
Proof. split; vm_compute; reflexivity. Qed.

(** The example of the specification, a range strictly inside the previous
    one: no gap is reported at 10:30, the answer is 12:00:01. *)
Lemma nested_range_strictly_inside (d : Z) (clk : clock) (n : nat) :
  0 <= d -> at_ 9 0 0 <= whole_seconds (clk n) ->
  find_available_slot clk [("a.txt"%string, [busy 9 0 12 0; busy 10 0 10 30])] d 1 n
  = (Ok (at_ 12 0 1), S n).
Proof.
  intros Hd Hclk.
  apply (find_available_slot_single clk _ _ d n (busy 9 0 12 0)
           [busy 10 0 10 30] (at_ 12 0 0)).
  - reflexivity.
  - unfold now_is_suitable, busy. cbn [fst].
    apply andb_false_iff. left. apply Z.ltb_ge. lia.
  - unfold scan. cbn [length Nat.sub while_loop].
    change (getitem [busy 9 0 12 0; busy 10 0 10 30] (-1 + 1 + 0))
      with (Ok (busy 9 0 12 0)).
    change (getitem [busy 9 0 12 0; busy 10 0 10 30] (-1 + 1 + 1))
      with (Ok (busy 10 0 10 30)).
    change (getitem [busy 9 0 12 0; busy 10 0 10 30] (-1 + 1 + (0 - 1)))
      with (Ok (busy 10 0 10 30)).
    cbn [bind].
    change ((fst (busy 9 0 12 0) <? fst (busy 10 0 10 30))
            && (snd (busy 10 0 10 30) <? snd (busy 9 0 12 0))) with true.
    cbv iota.
    replace (longer_than (fst (busy 10 0 10 30) - snd (busy 10 0 10 30)) d)
      with false; [reflexivity|].
    symmetry. unfold longer_than. apply Z.ltb_ge.
    assert (E : fst (busy 10 0 10 30) - snd (busy 10 0 10 30) = - (30 * MINUTE))
      by (vm_compute; reflexivity).
    rewrite E. assert (0 < MINUTE) by reflexivity. nia.
Qed.

(** ** The fallback *)

(** C6: an input on which the code departs from the claim.  One calendar is
    busy from 09:00 to 12:00, from 10:00 to 10:30 and from 13:00 to 14:00;
    one person and 90 minutes are asked for, the clock shows 08:45.  The
    only free time between the ranges is the hour from 12:00 to 13:00: no
    gap is long enough, and the claim asks for 14:00:01.  The first
    iteration of the loop skips the range 10:00-10:30; in the second one
    line 136 sets [shift] back to 0 before line 138 reads
    [date_ranges[i + shift]], which is then the skipped range and not the
    range 09:00-12:00 around it.  The 150 minutes from 10:30 to 13:00 are
    measured as a gap, and the search returns 10:30:01, inside the busy
    range 09:00-12:00. *)
Theorem gap_measured_from_a_skipped_range :
  let date_ranges := [busy 9 0 12 0; busy 10 0 10 30; busy 13 0 14 0] in
  sorted_by_start date_ranges = date_ranges
  /\ fst (busy 13 0 14 0) - snd (busy 9 0 12 0) = 60 * MINUTE
  /\ latest_end date_ranges = at_ 14 0 0
  /\ gaps_examined date_ranges
     = [(busy 13 0 14 0, busy 10 0 10 30); (busy 10 0 10 30, busy 13 0 14 0)]
  /\ find_available_slot (fixed_clock (at_ 8 45 0)) nested_then_later 90 1 0
     = (Ok (at_ 10 30 1), 1%nat)
  /\ fst (busy 9 0 12 0) < at_ 10 30 1 < snd (busy 9 0 12 0).
Proof. cbv zeta. repeat split; vm_compute; reflexivity. Qed.

(** The example of the specification: for the calendars 10:00-10:30 and
    10:15-10:45, two persons, 15 minutes and a clock at 09:45:00 or later,
    the search returns 10:45:01. *)
Lemma overlapping_example_answers_the_latest_end (clk : clock) (n : nat) :
  at_ 9 45 0 <= whole_seconds (clk n) ->
  find_available_slot clk overlapping_calendars 15 2 n
  = (Ok (at_ 10 45 1), S n).
Proof.
  intros Hclk.
  rewrite find_available_slot_unfold by lia.
  change (combinations (keys overlapping_calendars) (Z.to_nat 2))
    with [["a.txt"%string; "b.txt"%string]].
  cbn [for_combinations].
  rewrite (combination_body_scan overlapping_calendars 15 _
             ["a.txt"%string; "b.txt"%string]
             [[busy 10 0 10 30]; [busy 10 15 10 45]]
             (busy 10 0 10 30) [busy 10 15 10 45] (at_ 10 45 0));
    [reflexivity | reflexivity | reflexivity | | vm_compute; reflexivity].
  unfold now_is_suitable, longer_than, busy. cbn [fst].
  apply andb_false_iff. right. apply Z.ltb_ge.
  assert (E : at_ 10 0 0 = at_ 9 45 0 + 15 * MINUTE) by (vm_compute; reflexivity).
  lia.
Qed.

(** * The parser and the loader *)

Section ParserFacts.

Variable strptime : string -> format -> result datetime.

Lemma getitem_0 {A} (x : A) (l : list A) : getitem (x :: l) 0 = Ok x.
Proof. apply (getitem_nonneg (x :: l) 0). reflexivity. Qed.

Lemma getitem_1 {A} (x y : A) (l : list A) : getitem (x :: y :: l) 1 = Ok y.
Proof. apply (getitem_nonneg (x :: y :: l) 1). reflexivity. Qed.

Lemma validate_two_parts (dates part0 part1 : string) (more : list string)
    (s e : datetime) :
  str_split dates " - " = part0 :: part1 :: more ->
  strptime part0 DateTimeFormat = Ok s ->
  strptime part1 DateTimeFormat = Ok e ->
  validate_date_range_format strptime dates = Ok (s, e).
Proof.
  intros Hsplit Hs He. unfold validate_date_range_format.
  rewrite Hsplit, getitem_0, getitem_1.
  cbn [bind]. rewrite Hs. cbn [bind]. rewrite He. reflexivity.
Qed.

(** A record that is one timestamp and nothing else: the start is parsed,
    and [date_string[1]] raises an [IndexError] that no handler catches. *)
Lemma validate_lone_timestamp (dates : string) (s : datetime) :
  str_split dates " - " = [dates] ->
  strptime dates DateTimeFormat = Ok s ->
  validate_date_range_format strptime dates = Raise IndexError.
Proof.
  intros Hsplit Hs. unfold validate_date_range_format. rewrite Hsplit.
  change (getitem [dates] 0) with (Ok dates).
  change (getitem [dates] 1) with (@Raise string IndexError).
  cbn [bind]. rewrite Hs. reflexivity.
Qed.

(** A record whose first part fits neither format is refused with the
    [ValueError] of line 82. *)
Lemma validate_first_part_unreadable (dates part0 : string) (more : list string)
    (w1 w2 : value_error) :
  str_split dates " - " = part0 :: more ->
  strptime part0 DateTimeFormat = Raise (ValueError w1) ->
  strptime part0 DateFormat = Raise (ValueError w2) ->
  validate_date_range_format strptime dates
  = Raise (ValueError (DoesNotMatchFormat (part0 :: more))).
Proof.
  intros Hsplit H1 H2. unfold validate_date_range_format. rewrite Hsplit.
  rewrite getitem_0.
  cbn [bind]. rewrite H1, H2. reflexivity.
Qed.

Lemma for_lines_filter (current_date : datetime) :
  forall lines parsed acc,
    parse_all strptime lines = Ok parsed ->
    for_lines strptime current_date lines acc
    = Ok (acc ++ filter (fun r => current_date <? snd r) parsed).
Proof.
  induction lines as [|line lines IH]; intros parsed acc; cbn [parse_all for_lines].
  - intros [= <-]. now rewrite app_nil_r.
  - destruct (validate_date_range_format strptime (strip_newlines line))
      as [[s e]|err]; cbn [bind]; [|discriminate].
    destruct (parse_all strptime lines) as [rs|err]; cbn [bind]; [|discriminate].
    intros [= <-]. cbn [filter snd].
    destruct (current_date <? e).
    + rewrite (IH rs) by reflexivity. now rewrite <- app_assoc.
    + now apply IH.
Qed.

Variable read : string -> string -> list string.

Lemma dict_get_set_same (d : dict) (key : string) (v : list date_range) :
  dict_get (dict_set d key v) key = Ok v.
Proof.
  induction d as [|[k w] d IH]; cbn [dict_set dict_get].
  - now rewrite String.eqb_refl.
  - destruct (String.eqb k key) eqn:E; cbn [dict_get]; rewrite E; auto.
Qed.

Lemma dict_get_set_other (d : dict) (key key' : string) (v : list date_range) :
  key <> key' -> dict_get (dict_set d key v) key' = dict_get d key'.
Proof.
  intros Hne. induction d as [|[k w] d IH]; cbn [dict_set dict_get].
  - destruct (String.eqb_spec key key'); [contradiction | reflexivity].
  - destruct (String.eqb_spec k key) as [->|Hk]; cbn [dict_get].
    + destruct (String.eqb_spec key key'); [contradiction | reflexivity].
    + destruct (String.eqb k key'); auto.
Qed.

Lemma for_files_filter (current_date : datetime) (calendars : string)
    (parsed_of : string -> list date_range) :
  forall files d0,
    (forall f, In f files -> parse_all strptime (read calendars f) = Ok (parsed_of f)) ->
    exists cal,
      for_files strptime read current_date calendars files d0 = Ok cal
      /\ (forall f, In f files ->
            dict_get cal f
            = Ok (filter (fun r => current_date <? snd r) (parsed_of f)))
      /\ (forall f, ~ In f files -> dict_get cal f = dict_get d0 f).
Proof.
  induction files as [|file files IH]; intros d0 Hparse; cbn [for_files].
  - exists d0. split; [reflexivity|]. split; [intros f [] | reflexivity].
  - rewrite (for_lines_filter current_date _ (parsed_of file))
      by (apply Hparse; now left).
    cbn [bind app].
    destruct (IH (dict_set d0 file
                    (filter (fun r => current_date <? snd r) (parsed_of file)))
                 (fun f Hf => Hparse f (or_intror Hf)))
      as (cal & Hcal & Hin & Hout).
    exists cal. split; [exact Hcal|]. split.
    + intros f [<-|Hf]; [|now apply Hin].
      destruct (in_dec string_dec file files) as [Hf|Hf]; [now apply Hin|].
      rewrite (Hout file Hf). apply dict_get_set_same.
    + intros f Hf.
      rewrite Hout by (intros H; apply Hf; now right).
      apply dict_get_set_other. intros ->. apply Hf. now left.
Qed.

End ParserFacts.

(** ** Records *)

(** C3: an input on which the code departs from the claim.  The record
    "2022-05-14 12:00:00" is one timestamp without an end.  It fits neither
    of the two accepted forms, and the function does not raise the
    [ValueError] of line 82: the record has a single part, the start is
    parsed, and [date_string[1]] raises an [IndexError]. *)
Lemma lone_timestamp_raises_index_error :
  str_split "2022-05-14 12:00:00" " - " = ["2022-05-14 12:00:00"%string]
  /\ strptime_ascii "2022-05-14 12:00:00" DateFormat
     = Raise (ValueError StrptimeMismatch)
  /\ validate_date_range_format strptime_ascii "2022-05-14 12:00:00"
     = Raise IndexError.
Proof. repeat split; vm_compute; reflexivity. Qed.

(** The record of the test suite, with slashes, is refused as intended. *)
Lemma slashes_raise_value_error :
  validate_date_range_format strptime_ascii "2020/10/24 23:56:54"
  = Raise (ValueError (DoesNotMatchFormat ["2020/10/24 23:56:54"%string])).
Proof. vm_compute. reflexivity. Qed.

(** The two accepted forms, on the records of the test suite. *)
Lemma two_part_record_accepted :
  exists s e,
    datetime_new 2022 5 14 12 0 0 = Ok s
    /\ datetime_new 2022 5 14 12 59 59 = Ok e
    /\ validate_date_range_format strptime_ascii
         "2022-05-14 12:00:00 - 2022-05-14 12:59:59"
       = Ok (s, e).
Proof. do 2 eexists. repeat split; vm_compute; reflexivity. Qed.

Lemma one_part_record_accepted :
  exists s e,
    datetime_new 2022 5 14 0 0 0 = Ok s
    /\ datetime_new 2022 5 14 23 59 59 = Ok e
    /\ validate_date_range_format strptime_ascii "2022-05-14" = Ok (s, e).
Proof. do 2 eexists. repeat split; vm_compute; reflexivity. Qed.

(** C10.  Let the parts of a record between the separators " - " be [S],
    [E], [X] and any number of further parts, and let [strptime] read [S]
    and [E] as timestamps [s] and [e].  The record is accepted and the
    result is [(s, e)], whatever [X] and the further parts are. *)
Theorem parts_after_the_second_are_ignored
    (strptime : string -> format -> result datetime)
    (dates S E X : string) (further : list string) (s e : datetime) :
  str_split dates " - " = S :: E :: X :: further ->
  strptime S DateTimeFormat = Ok s ->
  strptime E DateTimeFormat = Ok e ->
  validate_date_range_format strptime dates = Ok (s, e).
Proof. intros Hsplit Hs He. eapply validate_two_parts; eauto. Qed.

Lemma parts_after_the_second_are_ignored_witness :
  validate_date_range_format strptime_ascii
    "2030-01-15 09:00:00 - 2030-01-15 09:30:00 - lunch - 2030-01-15"
  = Ok (at_ 9 0 0, at_ 9 30 0).
Proof.
  refine (parts_after_the_second_are_ignored strptime_ascii _
            "2030-01-15 09:00:00" "2030-01-15 09:30:00" "lunch"
            ["2030-01-15"%string] (at_ 9 0 0) (at_ 9 30 0) _ _ _).
  - vm_compute. reflexivity.
  - vm_compute. reflexivity.
  - vm_compute. reflexivity.
Defined.

(** A text without a blank followed by a dash is cut off at the first
    separator that is written after it. *)
Lemma str_split_first (S R : string) :
  no_blank_dash S = true ->
  str_split (S ++ " - " ++ R) " - " = S :: str_split R " - ".
Proof.
  unfold str_split. induction S as [|a S IH]; intros Hclean.
  - reflexivity.
  - change ((String a S ++ " - " ++ R)%string)
      with (String a (S ++ " - " ++ R)%string).
    cbn [split_go].
    assert (Hp : startswith (String a (S ++ " - " ++ R)) " - " = false).
    { cbn [startswith]. destruct (Ascii.eqb_spec " " a) as [<-|]; [|reflexivity].
      destruct S as [|b S]; [reflexivity|].
      change ((String b S ++ " - " ++ R)%string)
        with (String b (S ++ " - " ++ R)%string).
      cbn [no_blank_dash] in Hclean.
      apply andb_true_iff in Hclean. destruct Hclean as [Hab _].
      destruct (Ascii.eqb_spec "-" b) as [<-|]; [discriminate | reflexivity]. }
    rewrite Hp, IH; [reflexivity|].
    destruct S as [|b S]; [reflexivity|].
    cbn [no_blank_dash] in Hclean.
    apply andb_true_iff in Hclean. tauto.
Qed.

(** What the matchers consume. *)
Lemma in_then {A B} (p : matcher A) (k : A -> matcher B) (s : string)
    (b : B) (r : string) :
  In (b, r) (then_ p k s) ->
  exists a r1, In (a, r1) (p s) /\ In (b, r) (k a r1).
Proof.
  unfold then_. intros H. apply in_flat_map in H.
  destruct H as ([a r1] & H1 & H2). eauto.
Qed.

Lemma match_classes_text (P : char_class) (classes : list char_class) :
  Forall (fun cl : char_class => forall c, cl c = true -> P c = true) classes ->
  forall s m r,
    match_classes classes s = Some (m, r) ->
    s = (m ++ r)%string /\ all_chars P m = true
    /\ (classes <> [] -> m <> EmptyString).
Proof.
  induction 1 as [|cl classes Hcl _ IH]; intros s m r; cbn [match_classes].
  - intros [= <- <-]. repeat split. congruence.
  - destruct s as [|c s]; [discriminate|].
    destruct (cl c) eqn:Ec; [|discriminate].
    destruct (match_classes classes s) as [[m' r']|] eqn:Em; [|discriminate].
    intros [= <- <-]. destruct (IH _ _ _ Em) as (-> & Hall & _).
    repeat split; [| discriminate].
    cbn [all_chars]. now rewrite (Hcl c Ec), Hall.
Qed.

Lemma field_text (P : char_class) (alternatives : list (list char_class)) :
  Forall (fun alt => alt <> []
                     /\ Forall (fun cl : char_class =>
                                  forall c, cl c = true -> P c = true) alt)
    alternatives ->
  forall s v r,
    In (v, r) (field alternatives s) ->
    exists m, s = (m ++ r)%string /\ all_chars P m = true /\ m <> EmptyString.
Proof.
  intros Halts s v r Hin. unfold field in Hin. apply in_flat_map in Hin.
  destruct Hin as (alt & Halt & Hin).
  destruct (match_classes alt s) as [[m r']|] eqn:Em; [|destruct Hin].
  destruct Hin as [[= _ <-]|[]].
  rewrite Forall_forall in Halts. destruct (Halts alt Halt) as [Hne Hcl].
  destruct (match_classes_text P alt Hcl _ _ _ Em) as (Hs & Hall & Hm).
  exists m. auto.
Qed.

Lemma literal_text (a : ascii) (s : string) (u : unit) (r : string) :
  In (u, r) (literal a s) -> s = String a r.
Proof.
  unfold literal. destruct s as [|c s]; [intros []|].
  destruct (Ascii.eqb_spec c a) as [->|]; [|intros []].
  now intros [[= _ <-]|[]].
Qed.

Lemma spaces_star_text (s r : string) :
  In r (spaces_star s) ->
  exists m, s = (m ++ r)%string /\ all_chars not_dash m = true.
Proof.
  revert r. induction s as [|c s IH]; intros r; cbn [spaces_star].
  - intros [<-|[]]. now exists EmptyString.
  - assert (Hself : exists m, String c s = (m ++ String c s)%string
                              /\ all_chars not_dash m = true)
      by now exists EmptyString.
    destruct (is_space c) eqn:Ec; [|intros [<-|[]]; exact Hself].
    intros Hin. apply in_app_or in Hin.
    destruct Hin as [Hin|[<-|[]]]; [|exact Hself].
    destruct (IH r Hin) as (m & -> & Hm).
    exists (String c m). split; [reflexivity|].
    cbn [all_chars]. rewrite Hm, andb_true_r.
    unfold not_dash. destruct (Ascii.eqb_spec c "-") as [->|]; [|reflexivity].
    vm_compute in Ec. discriminate.
Qed.

Lemma spaces_text (s : string) (u : unit) (r : string) :
  In (u, r) (spaces s) ->
  exists m, s = (m ++ r)%string /\ all_chars not_dash m = true.
Proof.
  unfold spaces. destruct s as [|c s]; [intros []|].
  destruct (is_space c) eqn:Ec; [|intros []].
  intros Hin. apply in_map_iff in Hin. destruct Hin as (r' & Heq & Hin).
  injection Heq as _ Hr. subst r'.
  destruct (spaces_star_text s r Hin) as (m & -> & Hm).
  exists (String c m). split; [reflexivity|].
  cbn [all_chars]. rewrite Hm, andb_true_r.
  unfold not_dash. destruct (Ascii.eqb_spec c "-") as [->|]; [|reflexivity].
  vm_compute in Ec. discriminate.
Qed.

Lemma all_chars_app (P : char_class) (a b : string) :
  all_chars P (a ++ b) = all_chars P a && all_chars P b.
Proof.
  induction a as [|c a IH]; [reflexivity|].
  cbn [append all_chars]. now rewrite IH, andb_assoc.
Qed.

Lemma no_blank_dash_cons (a b : ascii) (s : string) :
  no_blank_dash (String a (String b s))
  = negb (Ascii.eqb a " " && Ascii.eqb b "-") && no_blank_dash (String b s).
Proof. reflexivity. Qed.

Lemma no_dash_no_blank_dash (s : string) :
  all_chars not_dash s = true -> no_blank_dash s = true.
Proof.
  induction s as [|a s IH]; [reflexivity|].
  cbn [all_chars]. intros H. apply andb_true_iff in H. destruct H as [_ Hs].
  destruct s as [|b s]; [reflexivity|].
  rewrite no_blank_dash_cons, (IH Hs), andb_true_r.
  cbn [all_chars] in Hs. apply andb_true_iff in Hs. destruct Hs as [Hb _].
  unfold not_dash in Hb. destruct (Ascii.eqb b "-"); [discriminate|].
  now rewrite andb_false_r.
Qed.

Lemma digits_then_dash (m rest : string) :
  all_chars is_digit m = true -> m <> EmptyString ->
  no_blank_dash rest = true ->
  no_blank_dash (m ++ String "-" rest) = true.
Proof.
  induction m as [|a m IH]; [congruence|]. intros Hm _ Hrest.
  cbn [all_chars] in Hm. apply andb_true_iff in Hm. destruct Hm as [Ha Hm].
  assert (Hblank : Ascii.eqb a " " = false).
  { destruct (Ascii.eqb_spec a " ") as [->|]; [|reflexivity].
    vm_compute in Ha. discriminate. }
  destruct m as [|b m].
  - change ((String a EmptyString ++ String "-" rest)%string)
      with (String a (String "-" rest)).
    rewrite no_blank_dash_cons, Hblank. cbn [andb negb].
    destruct rest as [|c rest]; [reflexivity|].
    now rewrite no_blank_dash_cons.
  - change ((String a (String b m) ++ String "-" rest)%string)
      with (String a (String b (m ++ String "-" rest))%string).
    rewrite no_blank_dash_cons, Hblank. cbn [andb negb].
    apply (IH Hm); [discriminate | exact Hrest].
Qed.

Ltac class_in_digits :=
  intros c Hc;
  first [ exact Hc
        | apply Ascii.eqb_eq in Hc; subst c; reflexivity
        | unfold is_digit, between in *;
          apply andb_true_iff in Hc; destruct Hc as [Hlo Hhi];
          apply Nat.leb_le in Hlo; apply Nat.leb_le in Hhi;
          apply andb_true_iff; split; apply Nat.leb_le;
          cbn [nat_of_ascii] in *; vm_compute in Hlo, Hhi |- *; lia ].

Ltac class_not_dash :=
  intros c Hc; unfold not_dash;
  destruct (Ascii.eqb_spec c "-") as [->|];
  [vm_compute in Hc; discriminate | reflexivity].

Ltac classes_in tac :=
  repeat (apply Forall_cons; [tac|]); apply Forall_nil.

Ltac alternatives_in tac :=
  repeat (apply Forall_cons; [split; [discriminate | classes_in tac]|]);
  apply Forall_nil.

(** No text that [strptime_ascii] reads as a timestamp has a blank followed
    by a dash. *)
Lemma timestamp_no_blank_dash (text : string) (t : datetime) :
  strptime_ascii text DateTimeFormat = Ok t -> no_blank_dash text = true.
Proof.
  unfold strptime_ascii.
  destruct (format_matcher DateTimeFormat text) as [|[built [|? ?]] ?] eqn:E;
    try discriminate.
  intros _.
  assert (Hin : In (built, EmptyString) (format_matcher DateTimeFormat text))
    by (rewrite E; now left).
  clear E. unfold format_matcher, date_fields, time_fields in Hin.
  apply in_then in Hin. destruct Hin as (y & r1 & Hy & Hin).
  apply in_then in Hin. destruct Hin as (? & r2 & Hd1 & Hin).
  apply in_then in Hin. destruct Hin as (mo & r3 & Hmo & Hin).
  apply in_then in Hin. destruct Hin as (? & r4 & Hd2 & Hin).
  apply in_then in Hin. destruct Hin as (dd & r5 & Hdd & Hin).
  apply in_then in Hin. destruct Hin as (? & r6 & Hsp & Hin).
  apply in_then in Hin. destruct Hin as (hh & r7 & Hhh & Hin).
  apply in_then in Hin. destruct Hin as (? & r8 & Hc1 & Hin).
  apply in_then in Hin. destruct Hin as (mi & r9 & Hmi & Hin).
  apply in_then in Hin. destruct Hin as (? & r10 & Hc2 & Hin).
  apply in_then in Hin. destruct Hin as (ss & r11 & Hss & Hin).
  destruct Hin as [[= _ ->]|[]].
  apply (field_text is_digit) in Hy; [|alternatives_in class_in_digits].
  apply (field_text is_digit) in Hmo; [|alternatives_in class_in_digits].
  apply (field_text not_dash) in Hdd; [|alternatives_in class_not_dash].
  apply (field_text not_dash) in Hhh; [|alternatives_in class_not_dash].
  apply (field_text not_dash) in Hmi; [|alternatives_in class_not_dash].
  apply (field_text not_dash) in Hss; [|alternatives_in class_not_dash].
  apply literal_text in Hd1, Hd2, Hc1, Hc2. apply spaces_text in Hsp.
  destruct Hy as (my & -> & Hmy & Hny), Hmo as (mmo & Hr2 & Hmmo & Hnmo),
    Hdd as (mdd & Hr4 & Hmdd & _), Hsp as (msp & Hr5 & Hmsp),
    Hhh as (mhh & Hr6 & Hmhh & _), Hmi as (mmi & Hr8 & Hmmi & _),
    Hss as (mss & Hr10 & Hmss & _).
  subst r1 r2 r3 r4 r5 r6 r7 r8 r9 r10.
  apply digits_then_dash; [assumption | assumption|].
  apply digits_then_dash; [assumption | assumption|].
  apply no_dash_no_blank_dash.
  rewrite !all_chars_app. cbn [all_chars]. rewrite !all_chars_app.
  cbn [all_chars]. rewrite !all_chars_app.
  rewrite Hmdd, Hmsp, Hmhh, Hmmi, Hmss. reflexivity.
Qed.

(** A record written as [S], the separator, [E], the separator and any text
    [X], for texts [S] and [E] without a blank followed by a dash. *)
Lemma written_out_record_accepted
    (strptime : string -> format -> result datetime)
    (S E X : string) (s e : datetime) :
  no_blank_dash S = true -> no_blank_dash E = true ->
  strptime S DateTimeFormat = Ok s ->
  strptime E DateTimeFormat = Ok e ->
  validate_date_range_format strptime (S ++ " - " ++ E ++ " - " ++ X)
  = Ok (s, e).
Proof.
  intros HS HE Hs He.
  destruct (str_split X " - ") as [|x further] eqn:EX.
  - apply (validate_two_parts strptime _ S E [] s e); auto.
    now rewrite !str_split_first, EX.
  - apply (validate_two_parts strptime _ S E (x :: further) s e); auto.
    now rewrite !str_split_first, EX.
Qed.

(** With the model of [strptime]: a record written as [S], the separator,
    [E], the separator and any text [X] is accepted as the range from [S]
    to [E]. *)
Lemma written_out_record_accepted_ascii (S E X : string) (s e : datetime) :
  strptime_ascii S DateTimeFormat = Ok s ->
  strptime_ascii E DateTimeFormat = Ok e ->
  validate_date_range_format strptime_ascii (S ++ " - " ++ E ++ " - " ++ X)
  = Ok (s, e).
Proof.
  intros Hs He. apply written_out_record_accepted; try assumption.
  - eapply timestamp_no_blank_dash; eauto.
  - eapply timestamp_no_blank_dash; eauto.
Qed.

(** ** The loader *)

(** C9.  Let every line of every calendar file be a record that the parser
    accepts.  The loader returns a dict that holds, for every file, the
    ranges parsed from its lines whose end is later than the clock value
    read at entry, as they were parsed and in the order of the lines: a
    range that ends at or before that value is not in the list, a range that
    ends after it is. *)
Theorem ended_ranges_dropped_others_kept
    (strptime : string -> format -> result datetime)
    (read : string -> string -> list string)
    (clk : clock) (calendar_files : list string) (calendars : string) (n : nat)
    (parsed_of : string -> list date_range) :
  (forall file, In file calendar_files ->
     parse_all strptime (read calendars file) = Ok (parsed_of file)) ->
  exists cal,
    get_calendar_date_ranges strptime read clk calendar_files calendars n
    = (Ok cal, S n)
    /\ forall file, In file calendar_files ->
       exists kept,
         dict_get cal file = Ok kept
         /\ kept = filter (fun r => clk n <? snd r) (parsed_of file)
         /\ forall r, In r (parsed_of file) ->
              (snd r <= clk n -> ~ In r kept) /\ (clk n < snd r -> In r kept).
Proof.
  intros Hparse. unfold get_calendar_date_ranges, datetime_now.
  destruct (for_files_filter strptime read (clk n) calendars parsed_of
              calendar_files [] Hparse) as (cal & Hcal & Hin & _).
  exists cal. rewrite Hcal. split; [reflexivity|].
  intros file Hfile. eexists. split; [apply Hin, Hfile|].
  split; [reflexivity|].
  intros r Hr. split.
  - intros Hle Hkept. apply filter_In in Hkept.
    destruct Hkept as [_ Hlt]. apply Z.ltb_lt in Hlt.
    apply (Z.lt_irrefl (clk n)). eapply Z.lt_le_trans; eauto.
  - intros Hlt. apply filter_In. split; [exact Hr | now apply Z.ltb_lt].
Qed.

Lemma ended_ranges_dropped_others_kept_witness :
  exists cal,
    get_calendar_date_ranges strptime_ascii (fun _ _ => three_lines)
      (fixed_clock (at_ 10 0 0)) ["a.txt"%string] "calendars" 0
    = (Ok cal, 1%nat)
    /\ dict_get cal "a.txt"
       = Ok [(at_ 9 30 0, at_ 10 30 0); (at_ 0 0 0 + DAY, at_ 23 59 59 + DAY)].
Proof.
  destruct (ended_ranges_dropped_others_kept strptime_ascii
              (fun _ _ => three_lines) (fixed_clock (at_ 10 0 0))
              ["a.txt"%string] "calendars" 0 (fun _ => three_ranges))
    as (cal & Hcal & Hkept).
  - intros file _. vm_compute. reflexivity.
  - exists cal. split; [exact Hcal|].
    destruct (Hkept "a.txt"%string (or_introl eq_refl)) as (kept & Hget & -> & _).
    exact Hget.
Defined.

(** * Further properties of the search *)

(** ** What the scan can answer *)

Lemma first_qualifying_cases (d : Z) (a : datetime)
    (pairs : list (date_range * date_range)) :
  first_qualifying d a pairs = a
  \/ exists pq, In pq pairs
       /\ first_qualifying d a pairs = snd (fst pq)
       /\ d * MINUTE < fst (snd pq) - snd (fst pq)
       /\ snd (fst pq) < a.
Proof.
  unfold first_qualifying.
  destruct (find (qualifies d a) pairs) as [pq|] eqn:E; [|now left].
  right. apply find_some in E. destruct E as [Hin Hq].
  unfold qualifies, longer_than in Hq. apply andb_true_iff in Hq.
  destruct Hq as [Hgap Hbefore].
  apply Z.ltb_lt in Hgap. apply Z.ltb_lt in Hbefore.
  exists pq. auto.
Qed.

Lemma scan_cases (dr : list date_range) (d : Z) :
  dr <> [] ->
  exists a,
    scan dr d = Ok a
    /\ (exists r, In r dr /\ snd r = a)
    /\ a <= latest_end dr
    /\ (a < latest_end dr ->
        exists p q, In p dr /\ In q dr /\ a = snd p
                    /\ d * MINUTE < fst q - snd p).
Proof.
  intros Hne. rewrite scan_examined by exact Hne.
  eexists. split; [reflexivity|].
  destruct (latest_end_spec dr Hne) as [(r & Hr & Er) Hmax].
  destruct (first_qualifying_cases d (latest_end dr) (gaps_examined dr))
    as [->|(pq & Hin & -> & Hgap & Hlt)].
  - split; [eauto|]. split; [apply Z.le_refl|]. intros H.
    exfalso. exact (Z.lt_irrefl _ H).
  - destruct (examined_in dr _ _ _ pq Hin) as [Hp Hq].
    split; [eauto|]. split; [now apply Z.lt_le_incl|].
    intros _. exists (fst pq), (snd pq). auto.
Qed.

(** X5.  The scan of a list that is not empty, sorted or not, raises nothing.
    Its answer is the end of a range of the list and is never later than
    the latest end; an answer before the latest end is the end of a range
    [p] for which a range [q] of the list starts more than the duration
    after [p] ends. *)
Theorem scan_answers_an_end (dr : list date_range) (d : Z) :
  dr <> [] ->
  exists a,
    scan dr d = Ok a
    /\ (exists r, In r dr /\ snd r = a)
    /\ a <= latest_end dr
    /\ (a < latest_end dr ->
        exists p q, In p dr /\ In q dr /\ a = snd p
                    /\ d * MINUTE < fst q - snd p).
Proof. exact (scan_cases dr d). Qed.

Lemma scan_answers_an_end_witness :
  exists a,
    scan [busy 9 0 9 30; busy 10 0 10 30] 29 = Ok a
    /\ (exists r, In r [busy 9 0 9 30; busy 10 0 10 30] /\ snd r = a)
    /\ a <= latest_end [busy 9 0 9 30; busy 10 0 10 30]
    /\ (a < latest_end [busy 9 0 9 30; busy 10 0 10 30] ->
        exists p q, In p [busy 9 0 9 30; busy 10 0 10 30]
                    /\ In q [busy 9 0 9 30; busy 10 0 10 30] /\ a = snd p
                    /\ 29 * MINUTE < fst q - snd p).
Proof.
  apply (scan_answers_an_end [busy 9 0 9 30; busy 10 0 10 30] 29).
  discriminate.
Defined.

(** ** Where the result comes from *)

Lemma dict_get_in (cal : dict) (key : string) (v : list date_range) :
  dict_get cal key = Ok v -> In (key, v) cal.
Proof.
  induction cal as [|[k w] cal IH]; cbn [dict_get]; [discriminate|].
  destruct (String.eqb_spec k key) as [->|].
  - intros [= ->]. now left.
  - intros H. right. now apply IH.
Qed.

Lemma lookup_all_in (cal : dict) :
  forall c lists r,
    lookup_all cal c = Ok lists -> In r (concat lists) ->
    exists key ranges, In key c /\ In (key, ranges) cal /\ In r ranges.
Proof.
  induction c as [|k c IH]; intros lists r; cbn [lookup_all].
  - intros [= <-] [].
  - destruct (dict_get cal k) as [v|] eqn:Ek; cbn [bind]; [|discriminate].
    destruct (lookup_all cal c) as [vs|] eqn:Ec; cbn [bind]; [|discriminate].
    intros [= <-] Hr. cbn [concat] in Hr. apply in_app_or in Hr.
    destruct Hr as [Hr|Hr].
    + exists k, v. split; [now left|]. split; [now apply dict_get_in | exact Hr].
    + destruct (IH vs r eq_refl Hr) as (key & ranges & Hk & Hin & Hr').
      exists key, ranges. split; [now right | auto].
Qed.

Lemma combination_body_slot_in (cal : dict) (d : Z) (current : datetime)
    (c : list string) (a : datetime) :
  combination_body cal d current c = Ok (Slot a) ->
  exists key ranges r,
    In key c /\ In (key, ranges) cal /\ In r ranges /\ snd r = a.
Proof.
  unfold combination_body.
  destruct (lookup_all cal c) as [lists|] eqn:El; cbn [bind]; [|discriminate].
  destruct (sorted_by_start (concat lists)) as [|first rest] eqn:Es;
    [discriminate|].
  destruct (now_is_suitable first current d); [discriminate|].
  destruct (scan_cases (first :: rest) d) as (a' & -> & (r & Hr & Er) & _);
    [discriminate|].
  cbn [bind]. intros [= <-].
  rewrite <- Es in Hr. apply (proj1 (sorted_by_start_in _ _)) in Hr.
  destruct (lookup_all_in cal c lists r El Hr) as (key & ranges & ? & ? & ?).
  exists key, ranges, r. auto.
Qed.

Lemma for_combinations_result (clk : clock) (cal : dict) (d : Z)
    (current : datetime) :
  forall comb avail n t m,
    for_combinations clk cal d current comb avail n = (Ok t, m) ->
    (m = S n /\ t = clk n)
    \/ (m = n /\ exists a, t = a + SECOND
                 /\ (avail = Some a
                     \/ exists c, In c comb
                          /\ combination_body cal d current c = Ok (Slot a))).
Proof.
  induction comb as [|c comb IH]; intros avail n t m; cbn [for_combinations].
  - destruct avail as [a|]; [|discriminate].
    intros [= E <-]. apply datetime_add_ok in E. destruct E as [-> _].
    right. split; [reflexivity|]. exists a. auto.
  - destruct (combination_body cal d current c) as [[|a]|e] eqn:Ec.
    + intros [= <- <-]. now left.
    + intros H. destruct (IH _ _ _ _ H) as [?|(-> & a' & -> & Ha')]; [now left|].
      right. split; [reflexivity|]. exists a'. split; [reflexivity|]. right.
      destruct Ha' as [[= <-]|(c' & Hc' & Hb)].
      * exists c. split; [now left | exact Ec].
      * exists c'. split; [now right | exact Hb].
    + discriminate.
Qed.

Lemma find_available_slot_slot (clk : clock) (cal : dict) (d k : Z) (n : nat)
    (t : datetime) :
  find_available_slot clk cal d k n = (Ok t, S n) ->
  exists key ranges r,
    In (key, ranges) cal /\ In r ranges /\ t = snd r + SECOND.
Proof.
  unfold find_available_slot, datetime_now.
  destruct (k <? 0); [discriminate|]. intros H.
  apply for_combinations_result in H.
  destruct H as [[E _]|(_ & a & -> & [?|(c & Hc & Hb)])]; [| discriminate |].
  - exfalso. injection E as E. clear - E.
    induction n as [|n IH]; [discriminate | injection E as E; auto].
  - destruct (combination_body_slot_in _ _ _ _ _ Hb)
      as (key & ranges & r & _ & ? & ? & <-).
    exists key, ranges, r. auto.
Qed.

(** X2.  A timestamp that the search returns is either the value of the second
    read of the clock, or one second past the end of a busy range that one
    of the calendars holds; in the second case the clock is read once. *)
Theorem result_is_now_or_one_second_past_an_end
    (clk : clock) (cal : dict) (d k : Z) (n : nat) (t : datetime) (m : nat) :
  find_available_slot clk cal d k n = (Ok t, m) ->
  (m = S (S n) /\ t = clk (S n))
  \/ (m = S n
      /\ exists key ranges r,
           In (key, ranges) cal /\ In r ranges /\ t = snd r + SECOND).
Proof.
  unfold find_available_slot, datetime_now.
  destruct (k <? 0); [discriminate|]. intros H.
  apply for_combinations_result in H.
  destruct H as [?|(-> & a & -> & [?|(c & Hc & Hb)])]; [now left | discriminate |].
  right. split; [reflexivity|].
  destruct (combination_body_slot_in _ _ _ _ _ Hb) as (key & ranges & r & _ & ? & ? & <-).
  exists key, ranges, r. auto.
Qed.

Lemma result_is_now_or_one_second_past_an_end_witness :
  (1%nat = 2%nat /\ at_ 11 30 1 = fixed_clock (at_ 9 45 0) 1%nat)
  \/ (1%nat = 1%nat
      /\ exists key ranges r,
           In (key, ranges) two_calendars /\ In r ranges
           /\ at_ 11 30 1 = snd r + SECOND).
Proof.
  apply (result_is_now_or_one_second_past_an_end (fixed_clock (at_ 9 45 0))
           two_calendars 30 1 0 (at_ 11 30 1) 1).
  vm_compute. reflexivity.
Defined.

(** X3.  Let every busy range of every calendar end after the clock value read
    at entry, as the loader leaves them.  A timestamp that the search returns
    without reading the clock again is later than that value. *)
Theorem slot_is_after_the_entry_snapshot
    (clk : clock) (cal : dict) (d k : Z) (n : nat) (t : datetime) :
  (forall key ranges r, In (key, ranges) cal -> In r ranges -> clk n < snd r) ->
  find_available_slot clk cal d k n = (Ok t, S n) ->
  clk n < t.
Proof.
  intros Hinv H. apply find_available_slot_slot in H.
  destruct H as (key & ranges & r & Hk & Hr & ->).
  pose proof (Hinv key ranges r Hk Hr) as Hlt.
  assert (0 < SECOND) by reflexivity.
  unfold datetime, timedelta in *. lia.
Qed.

Lemma slot_is_after_the_entry_snapshot_witness :
  fixed_clock (at_ 9 30 0) 0%nat < at_ 10 30 1.
Proof.
  apply (slot_is_after_the_entry_snapshot (fixed_clock (at_ 9 30 0))
           one_calendar_busy_at_ten 30 1 0 (at_ 10 30 1)).
  - intros key ranges r [E|[]] Hr. injection E as _ <-.
    destruct Hr as [<-|[]]. vm_compute. reflexivity.
  - vm_compute. reflexivity.
Defined.

(** ** When the search returns *)

Lemma combinations_some {A} (pool : list A) :
  forall r, (r <= length pool)%nat -> combinations pool r <> [].
Proof.
  induction pool as [|x rest IH]; intros [|r] Hr; simpl in *;
    try discriminate; try lia.
  intros E. apply app_eq_nil in E. destruct E as [E _].
  apply map_eq_nil in E. revert E. apply IH. lia.
Qed.

(** The loop over combinations none of which raises, when there is one to
    walk through or a value is bound already: it returns, unless the second
    of line 145 takes the value it holds past the year 9999. *)
Lemma for_combinations_returns (clk : clock) (cal : dict) (d : Z)
    (current : datetime) :
  forall comb avail n,
    runs cal d current comb ->
    comb <> [] \/ avail <> None ->
    (exists t m, for_combinations clk cal d current comb avail n = (Ok t, m))
    \/ (for_combinations clk cal d current comb avail n
        = (Raise OverflowError, n)
        /\ exists a,
             ~ representable (a + SECOND)
             /\ (avail = Some a
                 \/ exists c, In c comb
                      /\ combination_body cal d current c = Ok (Slot a))).
Proof.
  induction comb as [|c comb IH]; intros avail n Hruns Hsome;
    cbn [for_combinations].
  - destruct avail as [a|]; [|destruct Hsome; congruence].
    destruct (datetime_add_cases a SECOND) as [[_ ->]|[Hout ->]]; [eauto|].
    right. split; [reflexivity|]. exists a. auto.
  - destruct (Hruns c (or_introl eq_refl)) as [[|a] Hc]; rewrite Hc.
    + left. unfold datetime_now. eauto.
    + destruct (IH (Some a) n (fun x Hx => Hruns x (or_intror Hx)))
        as [?|(E & a' & Hout & Ha')]; [right; discriminate | now left |].
      right. split; [exact E|]. exists a'. split; [exact Hout|]. right.
      destruct Ha' as [[= <-]|(c' & Hc' & Hb)].
      * exists c. split; [now left | exact Hc].
      * exists c'. split; [now right | exact Hb].
Qed.

Lemma find_available_slot_returns (clk : clock) (cal : dict) (d k : Z)
    (n : nat) :
  0 <= k <= Z.of_nat (length cal) ->
  (exists t m, find_available_slot clk cal d k n = (Ok t, m))
  \/ (find_available_slot clk cal d k n = (Raise OverflowError, S n)
      /\ exists key ranges r,
           In (key, ranges) cal /\ In r ranges
           /\ ~ representable (snd r + SECOND)).
Proof.
  intros Hk. rewrite find_available_slot_unfold by lia.
  destruct (for_combinations_returns clk cal d (whole_seconds (clk n))
              (combinations (keys cal) (Z.to_nat k)) None (S n))
    as [?|(E & a & Hout & [?|(c & _ & Hb)])];
    [apply runs_combinations | | now left | discriminate |].
  - left. apply combinations_some. unfold keys. rewrite length_map. lia.
  - right. split; [exact E|].
    destruct (combination_body_slot_in _ _ _ _ _ Hb)
      as (key & ranges & r & _ & ? & ? & <-).
    exists key, ranges, r. auto.
Qed.

(** X1.  For a head count from zero up to the number of calendars the search
    returns a timestamp whenever every busy range ends at least a second
    before the last moment that a datetime can hold, and whatever the ranges
    are it raises nothing but the [OverflowError] of line 145: the shifted
    index of the [while] loop stays inside the list, every key of a
    combination is a key of the dict, and [available_time_slot] is bound
    when the loop is left. *)
Theorem search_returns_a_timestamp
    (clk : clock) (cal : dict) (d k : Z) (n : nat) :
  0 <= k <= Z.of_nat (length cal) ->
  ((forall key ranges r,
       In (key, ranges) cal -> In r ranges -> representable (snd r + SECOND)) ->
   exists t m, find_available_slot clk cal d k n = (Ok t, m))
  /\ (forall e m,
        find_available_slot clk cal d k n = (Raise e, m) -> e = OverflowError).
Proof.
  intros Hk.
  destruct (find_available_slot_returns clk cal d k n Hk)
    as [(t & m & E)|(E & key & ranges & r & Hkey & Hr & Hout)]; rewrite E.
  - split; [eauto | discriminate].
  - split; [|now intros e m [= <- _]].
    intros Hin. exfalso. apply Hout. eapply Hin; eauto.
Qed.

Lemma search_returns_a_timestamp_witness :
  exists t m,
    find_available_slot (fixed_clock (at_ 8 45 0)) nested_from_the_start 30 1 0
    = (Ok t, m).
Proof.
  refine (proj1 (search_returns_a_timestamp (fixed_clock (at_ 8 45 0))
                   nested_from_the_start 30 1 0 _) _).
  - simpl. lia.
  - intros key ranges r [E|[]] Hr. injection E as _ <-.
    destruct Hr as [<-|[<-|[<-|[]]]]; vm_compute; split; discriminate.
Defined.

(** A calendar that is busy until the last second of the year 9999: the
    search raises the [OverflowError] of line 145. *)
Lemma busy_until_the_end_of_time_overflows :
  datetime_new 9999 12 31 23 59 59 = Ok (datetime_max - 999999)
  /\ find_available_slot (fixed_clock (at_ 8 45 0))
       [("a.txt"%string, [(at_ 9 0 0, datetime_max - 999999)])] 30 1 0
     = (Raise OverflowError, 1%nat).
Proof. split; vm_compute; reflexivity. Qed.

Lemma lookup_all_free (cal : dict) (c : list string) :
  (forall key, In key c -> dict_get cal key = Ok []) ->
  exists lists, lookup_all cal c = Ok lists /\ concat lists = [].
Proof.
  induction c as [|k c IH]; intros Hfree; cbn [lookup_all].
  - exists []. auto.
  - rewrite (Hfree k (or_introl eq_refl)). cbn [bind].
    destruct (IH (fun key Hk => Hfree key (or_intror Hk))) as (lists & -> & E).
    cbn [bind]. exists ([] :: lists). auto.
Qed.

(** X4.  If one of the combinations enumerated consists of calendars that hold
    no busy range, the search returns the value of the second read of the
    clock, whatever the other calendars hold and whatever the duration is. *)
Theorem free_combination_is_now
    (clk : clock) (cal : dict) (d k : Z) (n : nat) (c : list string) :
  0 <= k ->
  In c (combinations (keys cal) (Z.to_nat k)) ->
  (forall key, In key c -> dict_get cal key = Ok []) ->
  find_available_slot clk cal d k n = (Ok (clk (S n)), S (S n)).
Proof.
  intros Hk Hc Hfree. rewrite find_available_slot_unfold by exact Hk.
  apply loop_some_now; [apply runs_combinations|].
  exists c. split; [exact Hc|]. unfold combination_body.
  destruct (lookup_all_free cal c Hfree) as (lists & El & Ec).
  rewrite El. cbn [bind]. rewrite Ec. reflexivity.
Qed.

Lemma free_combination_is_now_witness :
  find_available_slot drifting_clock busy_and_free 600 1 0
  = (Ok (at_ 9 0 0 + 250000), 2%nat).
Proof.
  refine (free_combination_is_now drifting_clock busy_and_free 600 1 0
            ["b.txt"%string] _ _ _).
  - lia.
  - right. now left.
  - intros key [<-|[]]. reflexivity.
Defined.

(** ** Ranges that do not touch: the slot is free *)









(** * Further properties of the parser *)

Lemma split_go_nonempty (sep : string) :
  forall s skip, split_go sep s skip <> [].
Proof.
  induction s as [|c s IH]; intros skip; cbn [split_go]; [discriminate|].
  destruct skip as [|k]; [|apply IH].
  destruct (startswith (String c s) sep); [discriminate|].
  destruct (split_go sep s 0); discriminate.
Qed.

(** A record that [split] leaves in one piece is that piece. *)
Lemma str_split_single (sep s piece : string) :
  str_split s sep = [piece] -> piece = s.
Proof.
  unfold str_split. revert piece.
  induction s as [|c s IH]; intros piece; cbn [split_go].
  - now intros [= <-].
  - destruct (startswith (String c s) sep).
    + intros [= _ H]. exfalso. exact (split_go_nonempty sep s _ H).
    + destruct (split_go sep s 0) as [|p ps] eqn:E.
      * exfalso. exact (split_go_nonempty sep s 0 E).
      * intros [= <- ->]. now rewrite (IH p eq_refl).
Qed.

Lemma str_split_none (s : string) :
  no_blank_dash s = true -> str_split s " - " = [s].
Proof.
  unfold str_split. induction s as [|a s IH]; intros Hclean; [reflexivity|].
  cbn [split_go].
  assert (Hp : startswith (String a s) " - " = false).
  { cbn [startswith]. destruct (Ascii.eqb_spec " " a) as [<-|]; [|reflexivity].
    destruct s as [|b s]; [reflexivity|].
    rewrite no_blank_dash_cons in Hclean.
    apply andb_true_iff in Hclean. destruct Hclean as [Hab _].
    destruct (Ascii.eqb_spec "-" b) as [<-|]; [discriminate | reflexivity]. }
  rewrite Hp, IH; [reflexivity|].
  destruct s as [|b s]; [reflexivity|].
  rewrite no_blank_dash_cons in Hclean.
  apply andb_true_iff in Hclean. tauto.
Qed.

Lemma whole_day_span (t : datetime) :
  replace_hms t 23 59 59 = replace_hms t 0 0 0 + (DAY - SECOND).
Proof.
  unfold replace_hms.
  change DAY with 86400000000. change HOUR with 3600000000.
  change MINUTE with 60000000. change SECOND with 1000000. lia.
Qed.

Section ValidateOutcomes.

Variable strptime : string -> format -> result datetime.

(** X10.  What the parser accepts.  An accepted record is either read from the
    first two parts of the record, both timestamps, and the result is the
    two timestamps as they are; or its first part is a date, and the result
    starts at 00:00:00 of the day and ends a day less a second later. *)
Theorem accepted_record_is_two_timestamps_or_a_day
    (dates : string) (s e : datetime) :
  validate_date_range_format strptime dates = Ok (s, e) ->
  (exists part0 part1 more,
      str_split dates " - " = part0 :: part1 :: more
      /\ strptime part0 DateTimeFormat = Ok s
      /\ strptime part1 DateTimeFormat = Ok e)
  \/ (exists part0 more t,
        str_split dates " - " = part0 :: more
        /\ strptime part0 DateFormat = Ok t
        /\ s = replace_hms t 0 0 0
        /\ e = s + (DAY - SECOND)).
Proof.
  unfold validate_date_range_format.
  destruct (str_split dates " - ") as [|part0 more] eqn:Es.
  { exfalso. exact (split_go_nonempty _ _ _ Es). }
  rewrite getitem_0. cbn [bind].
  assert (Hday :
    try_except_ValueError
      (entire <- strptime part0 DateFormat ;;
       Ok (replace_hms entire 0 0 0, replace_hms entire 23 59 59))
      (Raise (ValueError (DoesNotMatchFormat (part0 :: more)))) = Ok (s, e) ->
    exists t, strptime part0 DateFormat = Ok t
              /\ s = replace_hms t 0 0 0 /\ e = s + (DAY - SECOND)).
  { destruct (strptime part0 DateFormat) as [t|[]]; cbn [bind try_except_ValueError];
      try discriminate.
    intros [= <- <-]. exists t. split; [reflexivity|].
    split; [reflexivity | apply whole_day_span]. }
  destruct (strptime part0 DateTimeFormat) as [s0|err0] eqn:E0; cbn [bind].
  - destruct more as [|part1 more].
    + change (getitem [part0] 1) with (@Raise string IndexError).
      cbn [bind try_except_ValueError]. discriminate.
    + rewrite getitem_1. cbn [bind].
      destruct (strptime part1 DateTimeFormat) as [e0|err1] eqn:E1; cbn [bind].
      * cbn [try_except_ValueError]. intros [= <- <-].
        left. exists part0, part1, more. auto.
      * destruct err1; cbn [try_except_ValueError]; try discriminate.
        intros H. right. destruct (Hday H) as (t & ? & ? & ?).
        exists part0, (part1 :: more), t. auto.
  - destruct err0; cbn [try_except_ValueError]; try discriminate.
    intros H. right. destruct (Hday H) as (t & ? & ? & ?).
    exists part0, more, t. auto.
Qed.

(** X11.  How the parser fails, for a [strptime] that raises nothing but
    [ValueError].  The parser raises either the [ValueError] of line 82,
    which carries the parts of the record, or an [IndexError]; the latter
    only for a record without separator that is read as a timestamp. *)
Theorem refused_record_raises_format_or_index_error
    (dates : string) (e : exn) :
  only_value_errors strptime ->
  validate_date_range_format strptime dates = Raise e ->
  e = ValueError (DoesNotMatchFormat (str_split dates " - "))
  \/ (e = IndexError
      /\ str_split dates " - " = [dates]
      /\ exists t, strptime dates DateTimeFormat = Ok t).
Proof.
  intros Honly. unfold validate_date_range_format.
  destruct (str_split dates " - ") as [|part0 more] eqn:Es.
  { exfalso. exact (split_go_nonempty _ _ _ Es). }
  rewrite getitem_0. cbn [bind].
  assert (Hday :
    try_except_ValueError
      (entire <- strptime part0 DateFormat ;;
       Ok (replace_hms entire 0 0 0, replace_hms entire 23 59 59))
      (Raise (ValueError (DoesNotMatchFormat (part0 :: more)))) = Raise e ->
    e = ValueError (DoesNotMatchFormat (part0 :: more))).
  { destruct (strptime part0 DateFormat) as [t|err] eqn:Ed;
      cbn [bind try_except_ValueError]; [discriminate|].
    destruct (Honly _ _ _ Ed) as [why ->]. now intros [= <-]. }
  destruct (strptime part0 DateTimeFormat) as [s0|err0] eqn:E0; cbn [bind].
  - destruct more as [|part1 more].
    + change (getitem [part0] 1) with (@Raise string IndexError).
      cbn [bind try_except_ValueError]. intros [= <-]. right.
      pose proof (str_split_single _ _ _ Es) as ->. eauto.
    + rewrite getitem_1. cbn [bind].
      destruct (strptime part1 DateTimeFormat) as [e0|err1] eqn:E1; cbn [bind].
      * cbn [try_except_ValueError]. discriminate.
      * destruct (Honly _ _ _ E1) as [why ->]. cbn [try_except_ValueError].
        intros H. left. now apply Hday.
  - destruct (Honly _ _ _ E0) as [why ->]. cbn [try_except_ValueError].
    intros H. left. now apply Hday.
Qed.

End ValidateOutcomes.

(** ** The parser with the model of [strptime] *)

Lemma all_chars_impl (P Q : char_class) (s : string) :
  (forall c, P c = true -> Q c = true) ->
  all_chars P s = true -> all_chars Q s = true.
Proof.
  intros HPQ. induction s as [|c s IH]; [reflexivity|].
  cbn [all_chars]. intros H. apply andb_true_iff in H. destruct H as [Hc Hs].
  now rewrite (HPQ c Hc), (IH Hs).
Qed.

Ltac class_not_colon :=
  intros c Hc; unfold not_colon;
  destruct (Ascii.eqb_spec c ":") as [->|];
  [vm_compute in Hc; discriminate | reflexivity].

Ltac class_not_dash_colon :=
  intros c Hc; apply andb_true_iff; split;
  [revert c Hc; class_not_dash | revert c Hc; class_not_colon].

Ltac class_any := intros c _; reflexivity.

(** The text that the date format consumes and what is built from it. *)
Lemma date_format_text (text rest : string) (built : result datetime) :
  In (built, rest) (format_matcher DateFormat text) ->
  exists y m d yy mm dd,
    built = datetime_new y m d 0 0 0
    /\ text = (yy ++ String "-" (mm ++ String "-" (dd ++ rest)))%string
    /\ all_chars is_digit yy = true /\ yy <> EmptyString
    /\ all_chars is_digit mm = true /\ mm <> EmptyString
    /\ all_chars (fun c => not_dash c && not_colon c) dd = true.
Proof.
  unfold format_matcher, date_fields. intros Hin.
  apply in_then in Hin. destruct Hin as (y & r1 & Hy & Hin).
  apply in_then in Hin. destruct Hin as (? & r2 & Hd1 & Hin).
  apply in_then in Hin. destruct Hin as (m & r3 & Hm & Hin).
  apply in_then in Hin. destruct Hin as (? & r4 & Hd2 & Hin).
  apply in_then in Hin. destruct Hin as (d & r5 & Hd & Hin).
  destruct Hin as [[= <- <-]|[]].
  apply (field_text is_digit) in Hy; [|alternatives_in class_in_digits].
  apply (field_text is_digit) in Hm; [|alternatives_in class_in_digits].
  apply (field_text (fun c => not_dash c && not_colon c)) in Hd;
    [|alternatives_in class_not_dash_colon].
  apply literal_text in Hd1, Hd2.
  destruct Hy as (yy & -> & Hyy & Hny), Hm as (mm & Hr2 & Hmm & Hnm),
    Hd as (dd & Hr4 & Hdd & _).
  subst r1 r2 r3 r4.
  exists y, m, d, yy, mm, dd. repeat split; assumption.
Qed.

Lemma datetime_format_built (text rest : string) (built : result datetime) :
  In (built, rest) (format_matcher DateTimeFormat text) ->
  (exists y m d hh mi ss, built = datetime_new y m d hh mi ss)
  /\ all_chars not_colon text = false.
Proof.
  unfold format_matcher, date_fields, time_fields. intros Hin.
  apply in_then in Hin. destruct Hin as (y & r1 & Hy & Hin).
  apply in_then in Hin. destruct Hin as (? & r2 & Hd1 & Hin).
  apply in_then in Hin. destruct Hin as (mo & r3 & Hmo & Hin).
  apply in_then in Hin. destruct Hin as (? & r4 & Hd2 & Hin).
  apply in_then in Hin. destruct Hin as (dd & r5 & Hdd & Hin).
  apply in_then in Hin. destruct Hin as (? & r6 & Hsp & Hin).
  apply in_then in Hin. destruct Hin as (hh & r7 & Hhh & Hin).
  apply in_then in Hin. destruct Hin as (? & r8 & Hc1 & Hin).
  apply in_then in Hin. destruct Hin as (mi & r9 & Hmi & Hin).
  apply in_then in Hin. destruct Hin as (? & r10 & Hc2 & Hin).
  apply in_then in Hin. destruct Hin as (ss & r11 & Hss & Hin).
  destruct Hin as [[= <- <-]|[]].
  split; [now exists y, mo, dd, hh, mi, ss|].
  apply (field_text (fun _ => true)) in Hy; [|alternatives_in class_any].
  apply (field_text (fun _ => true)) in Hmo; [|alternatives_in class_any].
  apply (field_text (fun _ => true)) in Hdd; [|alternatives_in class_any].
  apply (field_text (fun _ => true)) in Hhh; [|alternatives_in class_any].
  apply literal_text in Hd1, Hd2, Hc1. apply spaces_text in Hsp.
  destruct Hy as (my & -> & _), Hmo as (mmo & Hr2 & _),
    Hdd as (mdd & Hr4 & _), Hsp as (msp & Hr5 & _), Hhh as (mhh & Hr6 & _).
  subst r1 r2 r3 r4 r5 r6 r7.
  rewrite all_chars_app. cbn [all_chars]. rewrite all_chars_app.
  cbn [all_chars]. rewrite !all_chars_app. cbn [all_chars].
  change (not_colon ":"%char) with false.
  now rewrite !andb_false_r.
Qed.

Lemma datetime_new_only_value_errors (y m d hh mi ss : Z) (e : exn) :
  datetime_new y m d hh mi ss = Raise e -> exists why, e = ValueError why.
Proof.
  unfold datetime_new. destruct (_ && _); [discriminate|].
  intros [= <-]. eauto.
Qed.

Lemma strptime_ascii_only_value_errors : only_value_errors strptime_ascii.
Proof.
  intros text fmt e. unfold strptime_ascii.
  destruct (format_matcher fmt text) as [|[built [|? ?]] ?] eqn:E;
    try (intros [= <-]; eauto).
  assert (Hin : In (built, EmptyString) (format_matcher fmt text))
    by (rewrite E; now left).
  destruct fmt.
  - destruct (datetime_format_built _ _ _ Hin)
      as [(y & m & d & hh & mi & ss & ->) _].
    apply datetime_new_only_value_errors.
  - destruct (date_format_text _ _ _ Hin) as (y & m & d & ? & ? & ? & -> & _).
    apply datetime_new_only_value_errors.
Qed.

(** A text without colon is no timestamp. *)
Lemma no_colon_no_timestamp (text : string) :
  all_chars not_colon text = true ->
  strptime_ascii text DateTimeFormat = Raise (ValueError StrptimeMismatch).
Proof.
  intros Hnc. unfold strptime_ascii.
  destruct (format_matcher DateTimeFormat text) as [|[built [|? ?]] ?] eqn:E;
    try reflexivity.
  assert (Hin : In (built, EmptyString) (format_matcher DateTimeFormat text))
    by (rewrite E; now left).
  destruct (datetime_format_built _ _ _ Hin) as [_ H]. congruence.
Qed.

Lemma midnight_replace (t k : Z) :
  t = k * DAY -> replace_hms t 0 0 0 = t.
Proof.
  intros ->. unfold replace_hms.
  rewrite Z.div_mul by (vm_compute; discriminate).
  replace (k * DAY) with (k * 86400 * SECOND) at 2
    by (change DAY with (86400 * SECOND); ring).
  rewrite Z.mod_mul by (vm_compute; discriminate).
  unfold datetime, timedelta. ring.
Qed.

(** X13.  With the model of [strptime], a record that is a date is accepted as
    the whole day: the range starts at the datetime that the date format
    yields, midnight, and ends a day less a second later. *)
Theorem date_record_is_the_whole_day (dates : string) (t : datetime) :
  strptime_ascii dates DateFormat = Ok t ->
  validate_date_range_format strptime_ascii dates = Ok (t, t + (DAY - SECOND)).
Proof.
  intros Ht. pose proof Ht as Ht'. unfold strptime_ascii in Ht'.
  destruct (format_matcher DateFormat dates) as [|[built [|? ?]] ?] eqn:E;
    try discriminate.
  subst built.
  assert (Hin : In (Ok t, EmptyString) (format_matcher DateFormat dates))
    by (rewrite E; now left).
  destruct (date_format_text _ _ _ Hin)
    as (y & m & d & yy & mm & dd & Hnew & -> & Hyy & Hny & Hmm & Hnm & Hdd).
  assert (Hdd_dash : all_chars not_dash (dd ++ "") = true).
  { rewrite all_chars_app, andb_true_r.
    eapply all_chars_impl; [|exact Hdd].
    intros c Hc. apply andb_true_iff in Hc. tauto. }
  assert (Hdd_colon : all_chars not_colon (dd ++ "") = true).
  { rewrite all_chars_app, andb_true_r.
    eapply all_chars_impl; [|exact Hdd].
    intros c Hc. apply andb_true_iff in Hc. tauto. }
  assert (Hclean : no_blank_dash (yy ++ String "-" (mm ++ String "-" (dd ++ "")))
                   = true).
  { apply digits_then_dash; [assumption | assumption|].
    apply digits_then_dash; [assumption | assumption|].
    now apply no_dash_no_blank_dash. }
  assert (Hnc : all_chars not_colon
                  (yy ++ String "-" (mm ++ String "-" (dd ++ ""))) = true).
  { rewrite all_chars_app. cbn [all_chars]. rewrite all_chars_app.
    cbn [all_chars]. rewrite Hdd_colon.
    rewrite (all_chars_impl is_digit not_colon yy) by (class_not_colon || assumption).
    rewrite (all_chars_impl is_digit not_colon mm) by (class_not_colon || assumption).
    reflexivity. }
  unfold validate_date_range_format.
  rewrite (str_split_none _ Hclean), getitem_0. cbn [bind].
  rewrite (no_colon_no_timestamp _ Hnc). cbn [bind try_except_ValueError].
  rewrite Ht. cbn [bind try_except_ValueError].
  rewrite whole_day_span.
  assert (Hmid : replace_hms t 0 0 0 = t).
  { unfold datetime_new in Hnew. destruct (_ && _); [|discriminate].
    injection Hnew as ->. apply (midnight_replace _ (ymd2ord y m d - 1)).
    unfold datetime, timedelta. ring. }
  now rewrite Hmid.
Qed.

Lemma date_record_is_the_whole_day_witness :
  validate_date_range_format strptime_ascii "2030-01-15"
  = Ok (at_ 0 0 0, at_ 0 0 0 + (DAY - SECOND)).
Proof.
  apply (date_record_is_the_whole_day "2030-01-15" (at_ 0 0 0)).
  vm_compute. reflexivity.
Defined.

(** X12.  With the model of [strptime], a record made of two timestamps with
    the separator between them is accepted, and the result is the two
    timestamps as [strptime] reads them; the second is not compared with the
    first. *)
Theorem two_timestamps_are_taken_as_they_are (S E : string) (s e : datetime) :
  strptime_ascii S DateTimeFormat = Ok s ->
  strptime_ascii E DateTimeFormat = Ok e ->
  validate_date_range_format strptime_ascii (S ++ " - " ++ E) = Ok (s, e).
Proof.
  intros Hs He.
  apply (validate_two_parts strptime_ascii _ S E [] s e); try assumption.
  rewrite str_split_first by (eapply timestamp_no_blank_dash; eauto).
  rewrite str_split_none by (eapply timestamp_no_blank_dash; eauto).
  reflexivity.
Qed.

Lemma two_timestamps_are_taken_as_they_are_witness :
  validate_date_range_format strptime_ascii
    ("2030-01-15 10:30:00" ++ " - " ++ "2030-01-15 09:00:00")
  = Ok (at_ 10 30 0, at_ 9 0 0).
Proof.
  apply (two_timestamps_are_taken_as_they_are
           "2030-01-15 10:30:00" "2030-01-15 09:00:00"
           (at_ 10 30 0) (at_ 9 0 0)); vm_compute; reflexivity.
Defined.

Lemma accepted_record_is_two_timestamps_or_a_day_witness :
  (exists part0 part1 more,
      str_split "2030-01-15" " - " = part0 :: part1 :: more
      /\ strptime_ascii part0 DateTimeFormat = Ok (at_ 0 0 0)
      /\ strptime_ascii part1 DateTimeFormat = Ok (at_ 23 59 59))
  \/ (exists part0 more t,
        str_split "2030-01-15" " - " = part0 :: more
        /\ strptime_ascii part0 DateFormat = Ok t
        /\ at_ 0 0 0 = replace_hms t 0 0 0
        /\ at_ 23 59 59 = at_ 0 0 0 + (DAY - SECOND)).
Proof.
  apply (accepted_record_is_two_timestamps_or_a_day strptime_ascii
           "2030-01-15" (at_ 0 0 0) (at_ 23 59 59)).
  vm_compute. reflexivity.
Defined.

Lemma refused_record_raises_format_or_index_error_witness :
  IndexError = ValueError (DoesNotMatchFormat (str_split "2030-01-15 09:00:00" " - "))
  \/ (IndexError = IndexError
      /\ str_split "2030-01-15 09:00:00" " - " = ["2030-01-15 09:00:00"%string]
      /\ exists t, strptime_ascii "2030-01-15 09:00:00" DateTimeFormat = Ok t).
Proof.
  apply (refused_record_raises_format_or_index_error strptime_ascii
           "2030-01-15 09:00:00" IndexError).
  - exact strptime_ascii_only_value_errors.
  - vm_compute. reflexivity.
Defined.

(** * Further properties of the loader *)

(** ** The names of the calendar files *)

Lemma substring_skip (stem s : string) (k : nat) :
  substring (String.length stem) k (stem ++ s) = substring 0 k s.
Proof. induction stem as [|c stem IH]; [reflexivity | exact IH]. Qed.

Lemma substring_whole (s : string) : substring 0 (String.length s) s = s.
Proof.
  induction s as [|c s IH]; [reflexivity|].
  cbn [String.length substring]. now rewrite IH.
Qed.

Lemma length_append (a b : string) :
  String.length (a ++ b) = (String.length a + String.length b)%nat.
Proof.
  induction a as [|c a IH]; [reflexivity|].
  cbn [append String.length]. now rewrite IH.
Qed.

Lemma substring_tail (suffix : string) :
  forall n s,
    String.length s = (n + String.length suffix)%nat ->
    substring n (String.length suffix) s = suffix ->
    exists stem, s = (stem ++ suffix)%string.
Proof.
  induction n as [|n IH]; intros s Hlen Hsub.
  - exists EmptyString. cbn [Nat.add] in Hlen.
    rewrite <- Hlen, substring_whole in Hsub. now rewrite Hsub.
  - destruct s as [|c s]; [discriminate|].
    cbn [substring] in Hsub. injection Hlen as Hlen.
    destruct (IH s Hlen Hsub) as [stem ->]. now exists (String c stem).
Qed.

Lemma endswith_iff (s suffix : string) :
  endswith s suffix = true <-> exists stem, s = (stem ++ suffix)%string.
Proof.
  unfold endswith. split.
  - intros H. apply andb_true_iff in H. destruct H as [Hle Heq].
    apply Nat.leb_le in Hle. apply String.eqb_eq in Heq.
    apply (substring_tail suffix (String.length s - String.length suffix));
      [lia | exact Heq].
  - intros [stem ->]. rewrite length_append. apply andb_true_iff. split.
    + apply Nat.leb_le. lia.
    + replace (String.length stem + String.length suffix - String.length suffix)%nat
        with (String.length stem) by lia.
      rewrite substring_skip, substring_whole. apply String.eqb_refl.
Qed.

(** X14.  When [get_calendar_file_names] returns, the list it returns is the
    listing of the directory without the names that do not end in ".txt", in
    the order of the listing; it is not empty and has at least
    [minimum_people] names. *)
Theorem calendar_files_are_the_txt_names
    (listdir : list string) (minimum_people : Z) (files : list string) :
  get_calendar_file_names listdir minimum_people = Ok files ->
  files = filter (fun file => endswith file ".txt") listdir
  /\ (forall file, In file files <->
        In file listdir /\ exists stem, file = (stem ++ ".txt")%string)
  /\ files <> []
  /\ minimum_people <= Z.of_nat (length files).
Proof.
  unfold get_calendar_file_names.
  set (txt := filter (fun file => endswith file ".txt") listdir).
  destruct (Nat.eqb_spec (length txt) 0) as [|Hne]; [discriminate|].
  destruct (Z.ltb_spec (Z.of_nat (length txt)) minimum_people) as [|Hle];
    [discriminate|].
  intros [= <-]. split; [reflexivity|]. split; [|split].
  - intros file. unfold txt. rewrite filter_In, endswith_iff. reflexivity.
  - intros E. rewrite E in Hne. now apply Hne.
  - exact Hle.
Qed.

Lemma calendar_files_are_the_txt_names_witness :
  ["a.txt"; "c.txt"]%string
  = filter (fun file => endswith file ".txt") ["a.txt"; "b.md"; "c.txt"]%string
  /\ (forall file, In file ["a.txt"; "c.txt"]%string <->
        In file ["a.txt"; "b.md"; "c.txt"]%string
        /\ exists stem, file = (stem ++ ".txt")%string)
  /\ ["a.txt"; "c.txt"]%string <> []
  /\ 2 <= Z.of_nat (length ["a.txt"; "c.txt"]%string).
Proof.
  apply (calendar_files_are_the_txt_names ["a.txt"; "b.md"; "c.txt"]%string 2).
  vm_compute. reflexivity.
Defined.


(** ** The dict that the loader builds *)

Section LoaderFacts.

Variable strptime : string -> format -> result datetime.
Variable read : string -> string -> list string.

Lemma for_lines_raises (current_date : datetime) (bad : string)
    (rest : list string) (e : exn) :
  validate_date_range_format strptime (strip_newlines bad) = Raise e ->
  forall good parsed acc,
    parse_all strptime good = Ok parsed ->
    for_lines strptime current_date (good ++ bad :: rest) acc = Raise e.
Proof.
  intros Hbad. induction good as [|line good IH]; intros parsed acc;
    cbn [app parse_all for_lines].
  - intros _. now rewrite Hbad.
  - destruct (validate_date_range_format strptime (strip_newlines line))
      as [[s t]|err]; cbn [bind]; [|discriminate].
    destruct (parse_all strptime good) as [rs|err]; cbn [bind]; [|discriminate].
    intros _. destruct (current_date <? t); now apply (IH rs).
Qed.

Lemma for_files_raises (current_date : datetime) (calendars file : string)
    (post : list string) (e : exn) :
  for_lines strptime current_date (read calendars file) [] = Raise e ->
  forall pre d0,
    (forall f, In f pre ->
       exists parsed, parse_all strptime (read calendars f) = Ok parsed) ->
    for_files strptime read current_date calendars (pre ++ file :: post) d0
    = Raise e.
Proof.
  intros Hfile. induction pre as [|f pre IH]; intros d0 Hpre;
    cbn [app for_files].
  - now rewrite Hfile.
  - destruct (Hpre f (or_introl eq_refl)) as [parsed Hp].
    rewrite (for_lines_filter strptime current_date _ parsed) by exact Hp.
    cbn [bind]. apply IH. intros g Hg. apply Hpre. now right.
Qed.

(** X15.  A record that the parser refuses stops the loader.  Let the records
    in the files listed before [file] and in the lines of [file] before the
    line [bad] be accepted, and let the parser raise [e] on [bad].  Then the
    loader raises [e] and returns no dict, whatever follows. *)
Theorem refused_record_stops_the_loader
    (clk : clock) (calendars file bad : string) (pre post : list string)
    (good rest : list string) (parsed : list date_range) (e : exn) (n : nat) :
  (forall f, In f pre ->
     exists parsed', parse_all strptime (read calendars f) = Ok parsed') ->
  read calendars file = good ++ bad :: rest ->
  parse_all strptime good = Ok parsed ->
  validate_date_range_format strptime (strip_newlines bad) = Raise e ->
  get_calendar_date_ranges strptime read clk (pre ++ file :: post) calendars n
  = (Raise e, S n).
Proof.
  intros Hpre Hread Hgood Hbad. unfold get_calendar_date_ranges, datetime_now.
  f_equal. apply for_files_raises; [|exact Hpre].
  rewrite Hread. eapply for_lines_raises; eauto.
Qed.

Lemma keys_dict_set_new (d : dict) (key : string) (v : list date_range) :
  ~ In key (keys d) -> keys (dict_set d key v) = keys d ++ [key].
Proof.
  induction d as [|[k w] d IH]; intros Hnew; cbn [dict_set keys map app];
    [reflexivity|].
  destruct (String.eqb_spec k key) as [->|Hne].
  - exfalso. apply Hnew. now left.
  - cbn [map fst]. f_equal. apply IH. intros H. apply Hnew. now right.
Qed.

Lemma for_files_keys (current_date : datetime) (calendars : string) :
  forall files d0 cal,
    NoDup files -> (forall f, In f files -> ~ In f (keys d0)) ->
    for_files strptime read current_date calendars files d0 = Ok cal ->
    keys cal = keys d0 ++ files.
Proof.
  induction files as [|f files IH]; intros d0 cal Hnd Hnew; cbn [for_files].
  - intros [= <-]. now rewrite app_nil_r.
  - destruct (for_lines strptime current_date (read calendars f) [])
      as [ranges|err]; cbn [bind]; [|discriminate].
    inversion Hnd as [|? ? Hf Hnd']; subst.
    intros H. apply IH in H; [|exact Hnd'|].
    + rewrite H, keys_dict_set_new by (apply Hnew; now left).
      now rewrite <- app_assoc.
    + intros g Hg. rewrite keys_dict_set_new by (apply Hnew; now left).
      intros Hin. apply in_app_or in Hin.
      destruct Hin as [Hin|[<-|[]]]; [|contradiction].
      apply (Hnew g); [now right | exact Hin].
Qed.

(** X16.  Let no name occur twice in the list of files.  A dict that the loader
    returns has the files as its keys, in the order of the list: a file
    whose ranges have all ended keeps its entry. *)
Theorem loader_keeps_one_entry_per_file
    (clk : clock) (calendar_files : list string) (calendars : string)
    (n m : nat) (cal : dict) :
  NoDup calendar_files ->
  get_calendar_date_ranges strptime read clk calendar_files calendars n
  = (Ok cal, m) ->
  keys cal = calendar_files /\ m = S n.
Proof.
  intros Hnd. unfold get_calendar_date_ranges, datetime_now.
  intros [= H <-]. split; [|reflexivity].
  apply for_files_keys in H; [exact H | exact Hnd | intros f _ []].
Qed.

End LoaderFacts.

Lemma refused_record_stops_the_loader_witness :
  get_calendar_date_ranges strptime_ascii read_with_a_bad_file
    (fixed_clock (at_ 10 0 0)) (["a.txt"%string] ++ "b.txt"%string :: ["c.txt"%string])
    "calendars" 0
  = (Raise (ValueError (DoesNotMatchFormat ["15/01/2030"%string])), 1%nat).
Proof.
  refine (refused_record_stops_the_loader strptime_ascii read_with_a_bad_file
            (fixed_clock (at_ 10 0 0)) "calendars" "b.txt"
            ("15/01/2030" ++ String newline EmptyString)
            ["a.txt"%string] ["c.txt"%string]
            ["2030-01-15 09:30:00 - 2030-01-15 10:30:00"
             ++ String newline EmptyString]%string
            ["2030-01-16"%string] [(at_ 9 30 0, at_ 10 30 0)] _ 0 _ _ _ _).
  - intros f [<-|[]]. exists three_ranges. vm_compute. reflexivity.
  - reflexivity.
  - vm_compute. reflexivity.
  - vm_compute. reflexivity.
Defined.

Lemma loader_keeps_one_entry_per_file_witness :
  keys [("a.txt"%string, []); ("b.txt"%string, [])]
  = ["a.txt"; "b.txt"]%string
  /\ 1%nat = 1%nat.
Proof.
  apply (loader_keeps_one_entry_per_file strptime_ascii
           (fun _ _ => three_lines) (fixed_clock (at_ 9 0 0 + 2 * DAY))
           ["a.txt"; "b.txt"]%string "calendars" 0 1).
  - repeat constructor; simpl; intuition discriminate.
  - vm_compute. reflexivity.
Defined.

(** * The program as a whole *)




(** * Further properties of the scan *)

(** ** Ranges that overlap *)

Lemma examined_overlapping :
  forall rest pre p q,
    overlapping (p :: q :: rest) ->
    examined (pre ++ p :: q :: rest) (S (length rest))
      (Z.of_nat (length pre) - 1) 0
    = [].
Proof.
  induction rest as [|r rest IH]; intros pre p q (Hqp & Hpq & Hrest).
  - cbn [examined length].
    rewrite (getitem_app_middle pre p [q]) by lia.
    replace (pre ++ [p; q]) with ((pre ++ [p]) ++ [q])
      by (now rewrite <- app_assoc).
    rewrite (getitem_app_middle (pre ++ [p]) q [])
      by (rewrite length_app; simpl; lia).
    replace ((fst p <? fst q) && (snd q <? snd p)) with false
      by (symmetry; apply andb_false_iff; right; apply Z.ltb_ge;
          now apply Z.lt_le_incl).
    replace ((fst q <? snd p) && (snd p <? snd q)) with true
      by (symmetry; apply andb_true_iff; split; now apply Z.ltb_lt).
    reflexivity.
  - cbn [examined].
    rewrite (getitem_app_middle pre p (q :: r :: rest)) by lia.
    replace (pre ++ p :: q :: r :: rest) with ((pre ++ [p]) ++ q :: r :: rest)
      by (now rewrite <- app_assoc).
    rewrite (getitem_app_middle (pre ++ [p]) q (r :: rest))
      by (rewrite length_app; simpl; lia).
    replace ((fst p <? fst q) && (snd q <? snd p)) with false
      by (symmetry; apply andb_false_iff; right; apply Z.ltb_ge;
          now apply Z.lt_le_incl).
    replace ((fst q <? snd p) && (snd p <? snd q)) with true
      by (symmetry; apply andb_true_iff; split; now apply Z.ltb_lt).
    replace (Z.of_nat (length pre) - 1 + 1)
      with (Z.of_nat (length (pre ++ [p])) - 1)
      by (rewrite length_app; simpl; lia).
    apply (IH (pre ++ [p]) q r). exact Hrest.
Qed.

Lemma gaps_examined_overlapping (dr : list date_range) :
  overlapping dr -> gaps_examined dr = [].
Proof.
  destruct dr as [|p [|q rest]]; intros H; try reflexivity.
  unfold gaps_examined. cbn [length].
  replace (S (S (length rest)) - 1)%nat with (S (length rest)) by lia.
  apply (examined_overlapping rest [] p q H).
Qed.

(** X7.  Ranges of which each overlaps the next are one busy block.  Let the
    sorted ranges of a combination be such that each starts before the one
    in front of it ends and ends after it, and let the clock not allow to
    answer "now".  Whatever the duration, no gap is measured, and the answer
    of the combination is what line 145 makes of the latest end: one second
    past it, and an [OverflowError] when that is past the year 9999. *)
Theorem overlapping_ranges_are_one_block
    (clk : clock) (cal : dict) (d : Z) (current : datetime)
    (c : list string) (n : nat) (lists : list (list date_range))
    (first : date_range) (rest : list date_range) :
  lookup_all cal c = Ok lists ->
  sorted_by_start (concat lists) = first :: rest ->
  overlapping (first :: rest) ->
  now_is_suitable first current d = false ->
  combination_answer clk cal d current c n
  = (datetime_add (latest_end (first :: rest)) SECOND, n).
Proof.
  intros Hl Hs Hov Hnow. apply combination_answer_slot.
  eapply combination_body_scan; eauto.
  rewrite scan_examined by discriminate.
  now rewrite gaps_examined_overlapping.
Qed.

Lemma overlapping_ranges_are_one_block_witness :
  combination_answer (fixed_clock (at_ 9 50 0)) overlapping_calendars 10
    (at_ 9 50 0) ["a.txt"%string; "b.txt"%string] 1
  = (Ok (at_ 10 45 1), 1%nat).
Proof.
  change (Ok (at_ 10 45 1))
    with (datetime_add (latest_end [busy 10 0 10 30; busy 10 15 10 45]) SECOND).
  refine (overlapping_ranges_are_one_block (fixed_clock (at_ 9 50 0))
            overlapping_calendars 10 (at_ 9 50 0)
            ["a.txt"%string; "b.txt"%string] 1
            [[busy 10 0 10 30]; [busy 10 15 10 45]]
            (busy 10 0 10 30) [busy 10 15 10 45] _ _ _ _).
  - reflexivity.
  - reflexivity.
  - vm_compute. repeat split; reflexivity.
  - vm_compute. reflexivity.
Defined.

(** ** Ranges inside the first range *)

Lemma nth_error_last {A} (l : list A) (x d0 : A) :
  nth_error (x :: l) (length l) = Some (last (x :: l) d0).
Proof.
  revert x. induction l as [|y l IH]; intros x; [reflexivity|].
  cbn [length nth_error]. now rewrite IH.
Qed.

Lemma getitem_minus_one {A} (x : A) (l : list A) :
  getitem (x :: l) (-1) = Ok (last (x :: l) x).
Proof.
  unfold getitem. change (-1 <? 0) with true. cbv iota.
  replace (-1 + Z.of_nat (length (x :: l))) with (Z.of_nat (length l))
    by (cbn [length]; lia).
  replace ((0 <=? Z.of_nat (length l))
           && (Z.of_nat (length l) <? Z.of_nat (length (x :: l)))) with true
    by (symmetry; apply andb_true_iff; split;
        [apply Z.leb_le | apply Z.ltb_lt]; cbn [length]; lia).
  now rewrite Nat2Z.id, (nth_error_last l x x).
Qed.

Lemma getitem_tail {A} (x : A) (l : list A) (j : Z) :
  1 <= j < 1 + Z.of_nat (length l) ->
  exists y, getitem (x :: l) j = Ok y /\ In y l.
Proof.
  intros Hj.
  destruct (nth_error l (Z.to_nat (j - 1))) as [y|] eqn:E.
  - exists y. split; [|eapply nth_error_In; eauto].
    replace j with (Z.of_nat (S (Z.to_nat (j - 1)))) by lia.
    apply getitem_nonneg. exact E.
  - apply nth_error_None in E. lia.
Qed.

Lemma sorted_le_last (l : list date_range) (d0 : date_range) :
  Sorted (fun a b => fst a <= fst b) l ->
  forall x, In x l -> fst x <= fst (last l d0).
Proof.
  induction l as [|a l IH]; intros Hs x; [intros []|].
  inversion Hs as [|? ? Hs' Hhd]; subst.
  destruct l as [|b l].
  - intros [<-|[]]. apply Z.le_refl.
  - change (last (a :: b :: l) d0) with (last (b :: l) d0).
    intros [<-|Hx]; [|now apply IH].
    inversion Hhd; subst.
    eapply Z.le_trans; [eassumption | apply IH; [assumption | now left]].
Qed.

Lemma max_by_end_first (best : date_range) (l : list date_range) :
  (forall r, In r l -> snd r < snd best) -> max_by_end best l = best.
Proof.
  revert best. induction l as [|x l IH]; intros best H; [reflexivity|].
  cbn [max_by_end].
  destruct (Z.ltb_spec (snd best) (snd x)) as [Hlt|_].
  - pose proof (H x (or_introl eq_refl)) as Hx.
    exfalso. apply (Z.lt_irrefl (snd x)). eapply Z.lt_trans; eauto.
  - apply IH. intros r Hr. apply H. now right.
Qed.

Lemma examined_nested (outer : date_range) (inners : list date_range) :
  (forall r, In r inners -> fst outer < fst r /\ snd r < snd outer) ->
  forall todo i shift pq,
    Z.of_nat todo + i + 2 = Z.of_nat (length (outer :: inners)) ->
    shift <= 0 -> i + 1 + shift = 0 ->
    In pq (examined (outer :: inners) todo i shift) ->
    fst pq = last (outer :: inners) outer /\ In (snd pq) inners.
Proof.
  intros Hin. induction todo as [|todo IH]; intros i shift pq Hlen Hsh H0;
    cbn [examined]; [intros []|].
  replace (i + 1 + shift) with 0 by lia. rewrite getitem_0.
  destruct (getitem_tail outer inners (i + 1 + 1)) as (next & -> & Hnext);
    [cbn [length] in Hlen; lia|].
  destruct (Hin next Hnext) as [Hstart Hend].
  replace ((fst outer <? fst next) && (snd next <? snd outer)) with true
    by (symmetry; apply andb_true_iff; split; now apply Z.ltb_lt).
  replace (i + 1 + (shift - 1)) with (-1) by lia.
  rewrite getitem_minus_one.
  intros [<-|Hpq]; [split; [reflexivity | exact Hnext]|].
  apply (IH (i + 1) (shift - 1)); [lia | lia | lia | exact Hpq].
Qed.

(** X8.  Ranges strictly inside the first range are skipped.  Let the sorted
    ranges of a combination be a range [outer] followed by ranges that start
    after [outer] starts and end before [outer] ends, each with its start
    before its end; let the duration not be negative and the clock not allow
    to answer "now".  No gap is reported inside [outer]: the answer of the
    combination is what line 145 makes of the end of [outer], one second
    past it, and an [OverflowError] when that is past the year 9999. *)
Theorem ranges_inside_the_first_are_skipped
    (clk : clock) (cal : dict) (d : Z) (current : datetime)
    (c : list string) (n : nat) (lists : list (list date_range))
    (outer : date_range) (inners : list date_range) :
  lookup_all cal c = Ok lists ->
  sorted_by_start (concat lists) = outer :: inners ->
  (forall r, In r inners ->
     fst outer < fst r /\ fst r < snd r /\ snd r < snd outer) ->
  0 <= d ->
  now_is_suitable outer current d = false ->
  combination_answer clk cal d current c n
  = (datetime_add (snd outer) SECOND, n).
Proof.
  intros Hl Hs Hin Hd Hnow. apply combination_answer_slot.
  eapply combination_body_scan; eauto.
  rewrite scan_examined by discriminate.
  assert (Hlatest : latest_end (outer :: inners) = snd outer).
  { unfold latest_end. rewrite max_by_end_first; [reflexivity|].
    intros r Hr. now apply Hin. }
  rewrite Hlatest, first_qualifying_none; [reflexivity|].
  intros pq Hpq.
  assert (Hsorted : Sorted (fun a b => fst a <= fst b) (outer :: inners))
    by (rewrite <- Hs; apply sorted_by_start_sorted).
  assert (Hlen : Z.of_nat (length (outer :: inners) - 1) + -1 + 2
                 = Z.of_nat (length (outer :: inners)))
    by (cbn [length]; lia).
  destruct (examined_nested outer inners
              (fun r Hr => conj (proj1 (Hin r Hr)) (proj2 (proj2 (Hin r Hr))))
              (length (outer :: inners) - 1) (-1) 0 pq
              Hlen (Z.le_refl 0) eq_refl Hpq)
    as [Hfst Hsnd].
  unfold qualifies, longer_than. apply andb_false_iff. left. apply Z.ltb_ge.
  rewrite Hfst.
  assert (Hlast : In (last (outer :: inners) outer) inners).
  { destruct inners as [|x inners]; [destruct Hsnd|].
    change (last (outer :: x :: inners) outer) with (last (x :: inners) outer).
    clear. revert x. induction inners as [|y l IHl]; intros x; [now left|].
    right. apply (IHl y). }
  pose proof (sorted_le_last _ outer Hsorted (snd pq) (or_intror Hsnd)) as Hle.
  destruct (Hin _ Hlast) as (_ & Hwf & _).
  assert (Hm : 0 <= d * MINUTE)
    by (apply Z.mul_nonneg_nonneg; [exact Hd | discriminate]).
  apply Z.le_trans with 0; [|exact Hm].
  apply Z.le_sub_0. eapply Z.le_trans; [exact Hle|].
  apply Z.lt_le_incl. exact Hwf.
Qed.

Lemma ranges_inside_the_first_are_skipped_witness :
  combination_answer (fixed_clock (at_ 8 45 0))
    [("a.txt"%string, [busy 10 0 10 30; busy 9 0 12 0; busy 11 0 11 10])]
    15 (at_ 8 45 0) ["a.txt"%string] 1
  = (Ok (at_ 12 0 1), 1%nat).
Proof.
  change (Ok (at_ 12 0 1)) with (datetime_add (snd (busy 9 0 12 0)) SECOND).
  refine (ranges_inside_the_first_are_skipped (fixed_clock (at_ 8 45 0)) _
            15 (at_ 8 45 0) ["a.txt"%string] 1
            [[busy 10 0 10 30; busy 9 0 12 0; busy 11 0 11 10]]
            (busy 9 0 12 0) [busy 10 0 10 30; busy 11 0 11 10] _ _ _ _ _).
  - reflexivity.
  - reflexivity.
  - intros r [<-|[<-|[]]]; vm_compute; repeat split; reflexivity.
  - lia.
  - vm_compute. reflexivity.
Defined.

(** ** Whole seconds *)

(** X9.  Let the ends of all busy ranges carry whole seconds, as the parser
    produces them.  A timestamp that the search returns without reading the
    clock again carries whole seconds; the value returned for "now" is the
    clock value as it was read, with its microseconds. *)
Theorem slot_carries_whole_seconds
    (clk : clock) (cal : dict) (d k : Z) (n : nat) (t : datetime) :
  (forall key ranges r, In (key, ranges) cal -> In r ranges -> whole (snd r)) ->
  find_available_slot clk cal d k n = (Ok t, S n) ->
  whole t.
Proof.
  intros Hw H. apply find_available_slot_slot in H.
  destruct H as (key & ranges & r & Hk & Hr & ->).
  pose proof (Hw key ranges r Hk Hr) as Hwr. unfold whole in *.
  rewrite <- Zplus_mod_idemp_l, Hwr. reflexivity.
Qed.

Lemma slot_carries_whole_seconds_witness : whole (at_ 10 30 1).
Proof.
  apply (slot_carries_whole_seconds (fixed_clock (at_ 9 30 0 + 17))
           one_calendar_busy_at_ten 30 1 0 (at_ 10 30 1)).
  - intros key ranges r [E|[]] Hr. injection E as _ <-.
    destruct Hr as [<-|[]]. vm_compute. reflexivity.
  - vm_compute. reflexivity.
Defined.

(** * What the search raises inside the program *)

Section ProgramFacts.

Variable strptime : string -> format -> result datetime.
Variable read : string -> string -> list string.

(** X18.  [main] hands to the search the dict that the loader built from the
    file names that [get_calendar_file_names] returned, with the head count
    that this function checked (lines 156-158).  If the listing names no
    file twice, an exception that the search then raises is the
    [OverflowError] of line 145 or, for a negative head count, the
    [ValueError] of [itertools.combinations].  The check of the file names
    leaves no room for the [UnboundLocalError] of a search without
    combinations, and the keys of the loader none for a [KeyError]. *)
Theorem search_after_loading_raises_only_overflow
    (clk : clock) (listdir : list string) (calendars_path : string)
    (duration_in_minutes minimum_people : Z) (n n' m : nat)
    (calendar_files : list string) (calendar_date_ranges : dict) (e : exn) :
  NoDup listdir ->
  get_calendar_file_names listdir minimum_people = Ok calendar_files ->
  get_calendar_date_ranges strptime read clk calendar_files calendars_path n
  = (Ok calendar_date_ranges, n') ->
  find_available_slot clk calendar_date_ranges duration_in_minutes
    minimum_people n'
  = (Raise e, m) ->
  e = OverflowError \/ (minimum_people < 0 /\ e = ValueError NegativeR).
Proof.
  intros Hnd Hnames Hload Hsearch.
  assert (Hfiles : calendar_files
                   = filter (fun file => endswith file ".txt") listdir
                   /\ minimum_people <= Z.of_nat (length calendar_files)).
  { revert Hnames. unfold get_calendar_file_names.
    destruct (_ =? _)%nat; [discriminate|].
    destruct (Z.ltb_spec
                (Z.of_nat (length (filter (fun file => endswith file ".txt")
                                     listdir)))
                minimum_people); [discriminate|].
    intros [= <-]. auto. }
  destruct Hfiles as [Hfilter Hle].
  unfold get_calendar_date_ranges, datetime_now in Hload.
  injection Hload as Hload _.
  assert (Hkeys : keys calendar_date_ranges = calendar_files).
  { apply (for_files_keys strptime read (clk n) calendars_path calendar_files
             [] calendar_date_ranges);
      [rewrite Hfilter; apply NoDup_filter; exact Hnd | intros f _ []
      | exact Hload]. }
  destruct (Z.ltb_spec minimum_people 0) as [Hneg|Hpos].
  - right. split; [exact Hneg|]. revert Hsearch.
    unfold find_available_slot, datetime_now.
    destruct (Z.ltb_spec minimum_people 0); [|lia]. now intros [= <- _].
  - left.
    destruct (find_available_slot_returns clk calendar_date_ranges
                duration_in_minutes minimum_people n')
      as [(t & m' & E)|(E & _)]; [| rewrite E in Hsearch ..].
    + rewrite <- (length_map fst calendar_date_ranges).
      fold (keys calendar_date_ranges). rewrite Hkeys. lia.
    + discriminate.
    + now injection Hsearch as <- _.
Qed.

End ProgramFacts.

Lemma search_after_loading_raises_only_overflow_witness :
  OverflowError = OverflowError
  \/ (1 < 0 /\ OverflowError = ValueError NegativeR).
Proof.
  apply (search_after_loading_raises_only_overflow strptime_ascii
           (fun _ _ => lines_until_the_last_second)
           (fixed_clock (at_ 10 0 0)) listing "calendars" 30 1 0 1 2
           ["a.txt"; "b.txt"]%string
           [("a.txt"%string, [(at_ 9 0 0, datetime_max - 999999)]);
            ("b.txt"%string, [(at_ 9 0 0, datetime_max - 999999)])]).
  - repeat constructor; simpl; intuition discriminate.
  - vm_compute. reflexivity.
  - vm_compute. reflexivity.
  - vm_compute. reflexivity.
Defined.
